(** * E-commerce admin API: a shallow embedding of [main.py]

    The FastAPI handlers of [main.py] are embedded as pure functions over an
    explicit record store.  Python values are modelled as the code has them:
    - [int] is [Z] (unbounded), [float] is an IEEE binary64 primitive float,
      [str] is [string], [Optional[T]] is [option T];
    - [datetime.date], [datetime.datetime] and [datetime.timedelta] follow
      CPython's [datetime] module (proleptic Gregorian ordinals);
    - an exception is a value of [exn]; a handler returns [result A];
    - the SQLAlchemy session is an explicit [DB] value; a commit checks the
      constraints the models declare (primary keys, [unique=True],
      [ForeignKey]).
    The store-maintained timestamps ([created_at], [updated_at],
    [last_updated]) are read by no handler and are left out of the rows.
    Magnitude limits of the store's INTEGER columns and of int-to-float
    conversion are outside the model: integers are unbounded. *)

From Stdlib Require Import ZArith List String Bool Lia Permutation.
From Stdlib Require Import Sorted.
From Stdlib Require Import Floats.PrimFloat Floats.SpecFloat Floats.FloatOps.
Import ListNotations.

Local Open Scope string_scope.
Local Open Scope list_scope.
Local Open Scope Z_scope.

(** ** Exceptions and results *)

Inductive exn : Type :=
| HTTPException (status_code : Z) (detail : string)
| RequestValidationError
| IntegrityError
| DataError
| TypeError
| ValueError
| OverflowError.

Inductive result (A : Type) : Type :=
| Ok (a : A)
| Raise (e : exn).

Arguments Ok {A} a.
Arguments Raise {A} e.

Definition bind {A B : Type} (r : result A) (k : A -> result B) : result B :=
  match r with
  | Ok a => k a
  | Raise e => Raise e
  end.

Notation "x <- r ;; k" := (bind r (fun x => k))
  (at level 61, r at next level, right associativity).

(** [[f(x) for x in l]] where [f] may raise: the first exception aborts. *)
Fixpoint mapM {A B : Type} (f : A -> result B) (l : list A) : result (list B) :=
  match l with
  | [] => Ok []
  | x :: l' => y <- f x ;; ys <- mapM f l' ;; Ok (y :: ys)
  end.

(** Python truthiness of the optional query parameters ([if category_id:],
    [if platform:]): [None], [0] and the empty string are falsy. *)
Definition truthy_int (o : option Z) : option Z :=
  match o with
  | Some n => if n =? 0 then None else Some n
  | None => None
  end.

Definition truthy_str (o : option string) : option string :=
  match o with
  | Some s => if String.eqb s "" then None else Some s
  | None => None
  end.

(** ** Floats *)

(** [float(n)] for a Python int: the correctly rounded binary64 value.
    (CPython raises OverflowError beyond the double range, from 2^1024 on;
    the conversion here yields infinity there.) *)
Definition float_of_int (n : Z) : float :=
  SF2Prim (binary_normalize prec emax n 0 false).

(** [n * x] and [x / n] for an int [n] and a float [x]. *)
Definition int_mul_float (n : Z) (x : float) : float :=
  PrimFloat.mul (float_of_int n) x.

Definition float_div_int (x : float) (n : Z) : float :=
  PrimFloat.div x (float_of_int n).

(** ** The [datetime] module *)

Module datetime_py.

Definition MINYEAR : Z := 1.
Definition MAXYEAR : Z := 9999.
Definition MAXORDINAL : Z := 3652059.

Definition DAYS_IN_MONTH : list Z :=
  [-1; 31; 28; 31; 30; 31; 30; 31; 31; 30; 31; 30; 31].

Definition DAYS_BEFORE_MONTH : list Z :=
  [-1; 0; 31; 59; 90; 120; 151; 181; 212; 243; 273; 304; 334].

Definition index (l : list Z) (i : Z) : Z := nth (Z.to_nat i) l 0.

Definition is_leap (year : Z) : bool :=
  (year mod 4 =? 0) && (negb (year mod 100 =? 0) || (year mod 400 =? 0)).

Definition b2z (b : bool) : Z := if b then 1 else 0.

Definition days_before_year (year : Z) : Z :=
  let y := year - 1 in
  y * 365 + y / 4 - y / 100 + y / 400.

Definition days_in_month (year month : Z) : Z :=
  if (month =? 2) && is_leap year then 29 else index DAYS_IN_MONTH month.

Definition days_before_month (year month : Z) : Z :=
  index DAYS_BEFORE_MONTH month + b2z ((month >? 2) && is_leap year).

Definition ymd2ord (year month day : Z) : Z :=
  days_before_year year + days_before_month year month + day.

Definition DI400Y : Z := 146097.
Definition DI100Y : Z := 36524.
Definition DI4Y : Z := 1461.

(** The month and day of the [n]-th day (from 0) of a year. *)
Definition ord2md (leapyear : bool) (n : Z) : Z * Z :=
  let month := Z.shiftr (n + 50) 5 in
  let preceding := index DAYS_BEFORE_MONTH month + b2z ((month >? 2) && leapyear) in
  if preceding >? n then
    let month := month - 1 in
    let preceding :=
      preceding - (index DAYS_IN_MONTH month + b2z ((month =? 2) && leapyear)) in
    (month, n - preceding + 1)
  else (month, n - preceding + 1).

Definition ord2ymd (n : Z) : Z * Z * Z :=
  let n := n - 1 in
  let n400 := n / DI400Y in
  let n := n mod DI400Y in
  let year := n400 * 400 + 1 in
  let n100 := n / DI100Y in
  let n := n mod DI100Y in
  let n4 := n / DI4Y in
  let n := n mod DI4Y in
  let n1 := n / 365 in
  let n := n mod 365 in
  let year := year + (n100 * 100 + n4 * 4 + n1) in
  if (n1 =? 4) || (n100 =? 4) then (year - 1, 12, 31)
  else
    let leapyear := (n1 =? 3) && (negb (n4 =? 24) || (n100 =? 3)) in
    let '(month, day) := ord2md leapyear n in
    (year, month, day).

(** *** [date] *)

Record date : Type := mkdate { year : Z; month : Z; day : Z }.

Definition check_date_fields (y m d : Z) : bool :=
  (MINYEAR <=? y) && (y <=? MAXYEAR) &&
  (1 <=? m) && (m <=? 12) &&
  (1 <=? d) && (d <=? days_in_month y m).

(** [date(y, m, d)]: ValueError on fields out of range. *)
Definition new_date (y m d : Z) : result date :=
  if check_date_fields y m d then Ok (mkdate y m d) else Raise ValueError.

Definition date_eqb (a b : date) : bool :=
  (year a =? year b) && (month a =? month b) && (day a =? day b).

Definition toordinal (d : date) : Z := ymd2ord (year d) (month d) (day d).

Definition fromordinal (n : Z) : date :=
  let '(y, m, d) := ord2ymd n in mkdate y m d.

(** [d.weekday()]: Monday is 0, Sunday is 6. *)
Definition weekday (d : date) : Z := (toordinal d + 6) mod 7.

(** [d.replace(year=.., month=.., day=..)]; an omitted keyword is [None]. *)
Definition date_replace (d : date) (y m dd : option Z) : result date :=
  new_date (match y with Some v => v | None => year d end)
           (match m with Some v => v | None => month d end)
           (match dd with Some v => v | None => day d end).

(** *** [timedelta], normalised as the constructor does:
    [0 <= seconds < 86400], [0 <= microseconds < 1000000]. *)

Record timedelta : Type := mktimedelta { days : Z; seconds : Z; microseconds : Z }.

Definition new_timedelta (d s us : Z) : timedelta :=
  let s := s + us / 1000000 in
  let us := us mod 1000000 in
  let d := d + s / 86400 in
  let s := s mod 86400 in
  mktimedelta d s us.

Definition timedelta_neg (t : timedelta) : timedelta :=
  new_timedelta (- days t) (- seconds t) (- microseconds t).

Definition timedelta_add (a b : timedelta) : timedelta :=
  new_timedelta (days a + days b) (seconds a + seconds b)
                (microseconds a + microseconds b).

(** [date + timedelta]: only [timedelta.days] counts. *)
Definition date_add (d : date) (t : timedelta) : result date :=
  let o := toordinal d + days t in
  if (0 <? o) && (o <=? MAXORDINAL) then Ok (fromordinal o)
  else Raise OverflowError.

(** [date - timedelta] is [date + timedelta(-other.days)]:
    seconds and microseconds of the timedelta are ignored. *)
Definition date_sub (d : date) (t : timedelta) : result date :=
  date_add d (new_timedelta (- days t) 0 0).

(** *** [datetime] (naive) *)

Record datetime : Type := mkdatetime {
  dt_date : date;
  hour : Z;
  minute : Z;
  second : Z;
  microsecond : Z
}.

(** [datetime.combine(d, datetime.min.time())] *)
Definition combine_min (d : date) : datetime := mkdatetime d 0 0 0 0.

Definition check_time_fields (h mi s us : Z) : bool :=
  (0 <=? h) && (h <=? 23) && (0 <=? mi) && (mi <=? 59) &&
  (0 <=? s) && (s <=? 59) && (0 <=? us) && (us <=? 999999).

Definition new_datetime (y m d h mi s us : Z) : result datetime :=
  if check_date_fields y m d && check_time_fields h mi s us
  then Ok (mkdatetime (mkdate y m d) h mi s us)
  else Raise ValueError.

(** [dt.replace(month=.., day=..)] *)
Definition datetime_replace_md (dt : datetime) (m dd : option Z) : result datetime :=
  new_datetime (year (dt_date dt))
               (match m with Some v => v | None => month (dt_date dt) end)
               (match dd with Some v => v | None => day (dt_date dt) end)
               (hour dt) (minute dt) (second dt) (microsecond dt).

(** [dt.replace(hour=.., minute=.., second=..)] *)
Definition datetime_replace_hms (dt : datetime) (h mi s : Z) : result datetime :=
  new_datetime (year (dt_date dt)) (month (dt_date dt)) (day (dt_date dt))
               h mi s (microsecond dt).

(** [datetime + timedelta] *)
Definition datetime_add (dt : datetime) (t : timedelta) : result datetime :=
  let delta :=
    timedelta_add
      (new_timedelta (toordinal (dt_date dt))
                     (hour dt * 3600 + minute dt * 60 + second dt)
                     (microsecond dt))
      t in
  let h := seconds delta / 3600 in
  let rem := seconds delta mod 3600 in
  let mi := rem / 60 in
  let s := rem mod 60 in
  if (0 <? days delta) && (days delta <=? MAXORDINAL)
  then Ok (mkdatetime (fromordinal (days delta)) h mi s (microseconds delta))
  else Raise OverflowError.

Definition datetime_sub (dt : datetime) (t : timedelta) : result datetime :=
  datetime_add dt (timedelta_neg t).

(** Ordering of naive datetimes: lexicographic on the fields. *)
Definition datetime_fields (dt : datetime) : list Z :=
  [year (dt_date dt); month (dt_date dt); day (dt_date dt);
   hour dt; minute dt; second dt; microsecond dt].

Fixpoint cmp_fields (a b : list Z) : comparison :=
  match a, b with
  | [], [] => Eq
  | [], _ :: _ => Lt
  | _ :: _, [] => Gt
  | x :: a', y :: b' =>
      match x ?= y with
      | Eq => cmp_fields a' b'
      | c => c
      end
  end.

Definition datetime_cmp (a b : datetime) : comparison :=
  cmp_fields (datetime_fields a) (datetime_fields b).

Definition datetime_leb (a b : datetime) : bool :=
  match datetime_cmp a b with Gt => false | _ => true end.

Definition datetime_ltb (a b : datetime) : bool :=
  match datetime_cmp a b with Lt => true | _ => false end.

(** *** Values that are a [date] or a [datetime] at run time *)

Inductive date_or_datetime : Type :=
| PDate (d : date)
| PDateTime (dt : datetime).

(** [v - timedelta], dispatched on the run-time class of [v]. *)
Definition sub_timedelta (v : date_or_datetime) (t : timedelta)
  : result date_or_datetime :=
  match v with
  | PDate d => r <- date_sub d t ;; Ok (PDate r)
  | PDateTime dt => r <- datetime_sub dt t ;; Ok (PDateTime r)
  end.

(** [v.replace(hour=h, minute=mi, second=s)]: [date.replace] accepts only
    [year], [month] and [day]; any other keyword is a TypeError. *)
Definition replace_hms (v : date_or_datetime) (h mi s : Z)
  : result date_or_datetime :=
  match v with
  | PDate _ => Raise TypeError
  | PDateTime dt => r <- datetime_replace_hms dt h mi s ;; Ok (PDateTime r)
  end.

End datetime_py.

Import datetime_py.

(** [sorted(l, key=...)]: a stable sort; [leb a b] says that [a] may stay in
    front of [b]. *)
Fixpoint insert_sorted {A : Type} (leb : A -> A -> bool) (x : A) (l : list A)
  : list A :=
  match l with
  | [] => [x]
  | y :: l' => if leb x y then x :: l else y :: insert_sorted leb x l'
  end.

Definition sorted {A : Type} (leb : A -> A -> bool) (l : list A) : list A :=
  fold_right (insert_sorted leb) [] l.

(** ** Database models *)

Module Category.
Record t : Type := mk {
  id : Z;
  name : string;
  description : option string
}.
End Category.

Module Product.
Record t : Type := mk {
  id : Z;
  name : string;
  description : option string;
  price : float;
  sku : string;
  category_id : Z;
  platform : string;
  is_active : bool
}.
End Product.

Module Inventory.
Record t : Type := mk {
  id : Z;
  product_id : Z;
  quantity : Z;
  low_stock_threshold : Z
}.
End Inventory.

Module Sale.
Record t : Type := mk {
  id : Z;
  product_id : Z;
  quantity : Z;
  unit_price : float;
  total_amount : float;
  sale_date : datetime;
  platform : string;
  order_id : option string
}.
End Sale.

(** The four tables, each in the order its rows come back from an
    unordered query. *)
Record DB : Type := mkDB {
  categories : list Category.t;
  products : list Product.t;
  inventory : list Inventory.t;
  sales : list Sale.t
}.

(** ** Pydantic models *)

Module CategoryCreate.
Record t : Type := mk {
  name : string;
  description : option string
}.
End CategoryCreate.

Module ProductCreate.
Record t : Type := mk {
  name : string;
  description : option string;
  price : float;
  sku : string;
  category_id : Z;
  platform : string;
  initial_stock : option Z;
  low_stock_threshold : option Z
}.
End ProductCreate.

Module InventoryUpdate.
Record t : Type := mk {
  quantity : Z;
  low_stock_threshold : option Z
}.
End InventoryUpdate.

Module SaleCreate.
Record t : Type := mk {
  product_id : Z;
  quantity : Z;
  unit_price : float;
  sale_date : datetime;
  platform : string;
  order_id : option string
}.
End SaleCreate.

Module RevenueAnalysis.
Record t : Type := mk {
  period : string;
  total_revenue : float;
  total_sales : Z;
  average_order_value : float;
  start_date : datetime;
  end_date : datetime
}.
End RevenueAnalysis.

Inductive PeriodType : Type := daily | weekly | monthly | annual.

Definition PeriodType_value (p : PeriodType) : string :=
  match p with
  | daily => "daily"
  | weekly => "weekly"
  | monthly => "monthly"
  | annual => "annual"
  end.

(** Validation of a [datetime] field by pydantic (version 2, whose
    [from_attributes] the models use): a [datetime] instance is kept, a
    [date] instance is taken as that day at midnight. *)
Definition validate_datetime (v : date_or_datetime) : datetime :=
  match v with
  | PDateTime dt => dt
  | PDate d => combine_min d
  end.

(** ** The session: inserts and updates as committed by [db.commit()] *)

(** An autoincrement primary key: a value above every key in the table. *)
Definition next_id (ids : list Z) : Z := 1 + fold_right Z.max 0 ids.

(** INSERT INTO categories: [name] is [unique=True]. *)
Definition insert_category (db : DB) (name : string) (description : option string)
  : result (Category.t * DB) :=
  if existsb (fun c => String.eqb (Category.name c) name) (categories db)
  then Raise IntegrityError
  else
    let row := Category.mk (next_id (map Category.id (categories db))) name description in
    Ok (row, mkDB (categories db ++ [row]) (products db) (inventory db) (sales db)).

(** INSERT INTO products: [sku] is [unique=True], [category_id] a foreign key;
    [is_active] takes its column default. *)
Definition insert_product (db : DB) (product : ProductCreate.t)
  : result (Product.t * DB) :=
  if existsb (fun p => String.eqb (Product.sku p) (ProductCreate.sku product)) (products db)
     || negb (existsb (fun c => Category.id c =? ProductCreate.category_id product)
                      (categories db))
  then Raise IntegrityError
  else
    let row := Product.mk (next_id (map Product.id (products db)))
                 (ProductCreate.name product) (ProductCreate.description product)
                 (ProductCreate.price product) (ProductCreate.sku product)
                 (ProductCreate.category_id product) (ProductCreate.platform product)
                 true in
    Ok (row, mkDB (categories db) (products db ++ [row]) (inventory db) (sales db)).

(** INSERT INTO inventory: [product_id] is [unique=True] and a foreign key.
    An attribute given as [None] is left out of the INSERT, so the column
    default applies: 0 for [quantity], 10 for [low_stock_threshold]. *)
Definition insert_inventory (db : DB) (product_id : Z)
  (quantity low_stock_threshold : option Z) : result (Inventory.t * DB) :=
  if existsb (fun i => Inventory.product_id i =? product_id) (inventory db)
     || negb (existsb (fun p => Product.id p =? product_id) (products db))
  then Raise IntegrityError
  else
    let row := Inventory.mk (next_id (map Inventory.id (inventory db))) product_id
                 (match quantity with Some q => q | None => 0 end)
                 (match low_stock_threshold with Some t => t | None => 10 end) in
    Ok (row, mkDB (categories db) (products db) (inventory db ++ [row]) (sales db)).

(** INSERT INTO sales: [product_id] is a foreign key. *)
Definition insert_sale (db : DB) (sale : SaleCreate.t) (total_amount : float)
  : result (Sale.t * DB) :=
  if negb (existsb (fun p => Product.id p =? SaleCreate.product_id sale) (products db))
  then Raise IntegrityError
  else
    let row := Sale.mk (next_id (map Sale.id (sales db)))
                 (SaleCreate.product_id sale) (SaleCreate.quantity sale)
                 (SaleCreate.unit_price sale) total_amount
                 (SaleCreate.sale_date sale) (SaleCreate.platform sale)
                 (SaleCreate.order_id sale) in
    Ok (row, mkDB (categories db) (products db) (inventory db) (sales db ++ [row])).

(** UPDATE inventory SET ... WHERE id = [Inventory.id row]. *)
Definition update_inventory_row (db : DB) (row : Inventory.t) : DB :=
  mkDB (categories db) (products db)
       (map (fun i => if Inventory.id i =? Inventory.id row then row else i)
            (inventory db))
       (sales db).

(** ** API endpoints

    A handler maps the store to its response, or the exception it raises,
    and the store as committed when it returns. *)

Definition create_category (category : CategoryCreate.t) (db : DB)
  : result Category.t * DB :=
  match insert_category db (CategoryCreate.name category)
                        (CategoryCreate.description category) with
  | Ok (db_category, db') => (Ok db_category, db')
  | Raise e => (Raise e, db)
  end.

Definition get_categories (db : DB) : list Category.t := categories db.

Definition create_product (product : ProductCreate.t) (db : DB)
  : result Product.t * DB :=
  match find (fun c => Category.id c =? ProductCreate.category_id product)
             (categories db) with
  | None => (Raise (HTTPException 404 "Category not found"), db)
  | Some _ =>
    match find (fun p => String.eqb (Product.sku p) (ProductCreate.sku product))
               (products db) with
    | Some _ => (Raise (HTTPException 400 "SKU already exists"), db)
    | None =>
      let initial_stock := ProductCreate.initial_stock product in
      let low_stock_threshold := ProductCreate.low_stock_threshold product in
      match insert_product db product with
      | Raise e => (Raise e, db)
      | Ok (db_product, db1) =>
        match insert_inventory db1 (Product.id db_product)
                               initial_stock low_stock_threshold with
        | Raise e => (Raise e, db1)
        | Ok (_, db2) => (Ok db_product, db2)
        end
      end
    end
  end.

Definition get_products (category_id : option Z) (platform : option string)
  (is_active : option bool) (db : DB) : list Product.t :=
  let query := products db in
  let query :=
    match truthy_int category_id with
    | Some c => filter (fun p => Product.category_id p =? c) query
    | None => query
    end in
  let query :=
    match truthy_str platform with
    | Some pl => filter (fun p => String.eqb (Product.platform p) pl) query
    | None => query
    end in
  let query :=
    match is_active with
    | Some a => filter (fun p => Bool.eqb (Product.is_active p) a) query
    | None => query
    end in
  query.

Definition get_product (product_id : Z) (db : DB) : result Product.t :=
  match find (fun p => Product.id p =? product_id) (products db) with
  | None => Raise (HTTPException 404 "Product not found")
  | Some product => Ok product
  end.

Definition is_low_stock (i : Inventory.t) : bool :=
  Inventory.quantity i <=? Inventory.low_stock_threshold i.

(** [db.query(Inventory).join(Product)] *)
Definition join_inventory_products (db : DB) : list (Inventory.t * Product.t) :=
  flat_map (fun i =>
    map (pair i) (filter (fun p => Product.id p =? Inventory.product_id i) (products db)))
    (inventory db).

Definition get_inventory (low_stock_only : bool) (db : DB)
  : list (Inventory.t * bool) :=
  let query := map fst (join_inventory_products db) in
  let query := if low_stock_only then filter is_low_stock query else query in
  map (fun i => (i, is_low_stock i)) query.

Definition update_inventory (product_id : Z) (inventory_update : InventoryUpdate.t)
  (db : DB) : result (Inventory.t * bool) * DB :=
  match find (fun i => Inventory.product_id i =? product_id) (inventory db) with
  | None => (Raise (HTTPException 404 "Inventory not found"), db)
  | Some inv =>
    let inv := Inventory.mk (Inventory.id inv) (Inventory.product_id inv)
                 (InventoryUpdate.quantity inventory_update)
                 (Inventory.low_stock_threshold inv) in
    let inv :=
      match InventoryUpdate.low_stock_threshold inventory_update with
      | Some t => Inventory.mk (Inventory.id inv) (Inventory.product_id inv)
                    (Inventory.quantity inv) t
      | None => inv
      end in
    (Ok (inv, is_low_stock inv), update_inventory_row db inv)
  end.

Definition create_sale (sale : SaleCreate.t) (db : DB) : result Sale.t * DB :=
  match find (fun p => Product.id p =? SaleCreate.product_id sale) (products db) with
  | None => (Raise (HTTPException 404 "Product not found"), db)
  | Some _ =>
    let total_amount :=
      int_mul_float (SaleCreate.quantity sale) (SaleCreate.unit_price sale) in
    (* [db.add(db_sale)], the inventory change and the one commit *)
    match insert_sale db sale total_amount with
    | Raise e => (Raise e, db)
    | Ok (db_sale, db1) =>
      match find (fun i => Inventory.product_id i =? SaleCreate.product_id sale)
                 (inventory db1) with
      | Some inv =>
        let q := Inventory.quantity inv - SaleCreate.quantity sale in
        let q := if q <? 0 then 0 else q in
        (Ok db_sale,
         update_inventory_row db1
           (Inventory.mk (Inventory.id inv) (Inventory.product_id inv) q
                         (Inventory.low_stock_threshold inv)))
      | None => (Ok db_sale, db1)
      end
    end
  end.

(** [db.query(Sale).join(Product)] *)
Definition join_sales_products (db : DB) : list (Sale.t * Product.t) :=
  flat_map (fun s =>
    map (pair s) (filter (fun p => Product.id p =? Sale.product_id s) (products db)))
    (sales db).

Definition sale_date_desc (a b : Sale.t * Product.t) : bool :=
  datetime_leb (Sale.sale_date (fst b)) (Sale.sale_date (fst a)).

(** [limit] is declared [Query(100, le=1000)] and [offset] [Query(0, ge=0)];
    a negative LIMIT is refused by the store. *)
Definition get_sales (start_date end_date : option datetime)
  (product_id category_id : option Z) (platform : option string)
  (limit offset : Z) (db : DB) : result (list Sale.t) :=
  if (limit >? 1000) || (offset <? 0) then Raise RequestValidationError
  else
    let query := join_sales_products db in
    let query :=
      match start_date with
      | Some sd => filter (fun r => datetime_leb sd (Sale.sale_date (fst r))) query
      | None => query
      end in
    let query :=
      match end_date with
      | Some ed => filter (fun r => datetime_leb (Sale.sale_date (fst r)) ed) query
      | None => query
      end in
    let query :=
      match truthy_int product_id with
      | Some pid => filter (fun r => Sale.product_id (fst r) =? pid) query
      | None => query
      end in
    let query :=
      match truthy_int category_id with
      | Some c => filter (fun r => Product.category_id (snd r) =? c) query
      | None => query
      end in
    let query :=
      match truthy_str platform with
      | Some pl => filter (fun r => String.eqb (Sale.platform (fst r)) pl) query
      | None => query
      end in
    if limit <? 0 then Raise DataError
    else Ok (map fst (firstn (Z.to_nat limit)
                        (skipn (Z.to_nat offset) (sorted sale_date_desc query)))).

(** ** Revenue analysis *)

(** One value of the [grouped_sales] dict. *)
Module grouped.
Record data : Type := mk {
  total_revenue : float;
  total_sales : Z;
  sales_count : Z
}.
End grouped.

(** The dict itself, in insertion order (the order [.items()] yields). *)
Definition grouped_sales_t : Type := list (date * grouped.data).

Definition has_key (g : grouped_sales_t) (key : date) : bool :=
  existsb (fun kd => date_eqb key (fst kd)) g.

Fixpoint update_key (g : grouped_sales_t) (key : date)
  (f : grouped.data -> grouped.data) : grouped_sales_t :=
  match g with
  | [] => []
  | (k, d) :: g' =>
      if date_eqb key k then (k, f d) :: g' else (k, d) :: update_key g' key f
  end.

(** The key of a sale's bucket. *)
Definition bucket_key (period : PeriodType) (sale_date : datetime) : result date :=
  match period with
  | daily => Ok (dt_date sale_date)
  | weekly =>
      date_sub (dt_date sale_date)
               (new_timedelta (weekday (dt_date sale_date)) 0 0)
  | monthly =>
      r <- datetime_replace_md sale_date None (Some 1) ;; Ok (dt_date r)
  | annual =>
      r <- datetime_replace_md sale_date (Some 1) (Some 1) ;; Ok (dt_date r)
  end.

(** One turn of the grouping loop, after the key is computed.  The int [0]
    a new entry starts from becomes [0.0] at its first float addition. *)
Definition add_sale (g : grouped_sales_t) (key : date) (sale : Sale.t)
  : grouped_sales_t :=
  let g := if has_key g key then g else g ++ [(key, grouped.mk 0%float 0 0)] in
  update_key g key (fun d =>
    grouped.mk (PrimFloat.add (grouped.total_revenue d) (Sale.total_amount sale))
               (grouped.total_sales d + Sale.quantity sale)
               (grouped.sales_count d + 1)).

Fixpoint group_sales (period : PeriodType) (sales : list Sale.t)
  (grouped_sales : grouped_sales_t) : result grouped_sales_t :=
  match sales with
  | [] => Ok grouped_sales
  | sale :: rest =>
      key <- bucket_key period (Sale.sale_date sale) ;;
      group_sales period rest (add_sale grouped_sales key sale)
  end.

(** The end of the bucket that starts at [date_key]. *)
Definition period_end (period : PeriodType) (date_key : date)
  : result date_or_datetime :=
  match period with
  | daily =>
      a <- datetime_add (combine_min date_key) (new_timedelta 1 0 0) ;;
      sub_timedelta (PDateTime a) (new_timedelta 0 1 0)
  | weekly =>
      a <- datetime_add (combine_min date_key) (new_timedelta 7 0 0) ;;
      sub_timedelta (PDateTime a) (new_timedelta 0 1 0)
  | monthly =>
      d28 <- date_replace date_key None None (Some 28) ;;
      next_month <- date_add d28 (new_timedelta 4 0 0) ;;
      last <- date_sub next_month (new_timedelta (day next_month) 0 0) ;;
      replace_hms (PDate last) 23 59 59
  | annual =>
      d <- date_replace date_key (Some (year date_key + 1)) None None ;;
      sub_timedelta (PDate d) (new_timedelta 0 1 0)
  end.

Definition to_response (period : PeriodType) (item : date * grouped.data)
  : result RevenueAnalysis.t :=
  let '(date_key, data) := item in
  let avg_order_value :=
    if grouped.sales_count data >? 0
    then float_div_int (grouped.total_revenue data) (grouped.sales_count data)
    else 0%float in
  pe <- period_end period date_key ;;
  Ok (RevenueAnalysis.mk (PeriodType_value period)
        (grouped.total_revenue data) (grouped.total_sales data)
        avg_order_value (combine_min date_key) (validate_datetime pe)).

Definition by_start_date (a b : RevenueAnalysis.t) : bool :=
  datetime_leb (RevenueAnalysis.start_date a) (RevenueAnalysis.start_date b).

(** The query of the revenue analysis: the joined rows in the date range
    that pass the filters given. *)
Definition revenue_query (start_date end_date : datetime)
  (category_id : option Z) (platform : option string) (db : DB)
  : list Sale.t :=
  let query := join_sales_products db in
  let query :=
    filter (fun r => datetime_leb start_date (Sale.sale_date (fst r))
                     && datetime_leb (Sale.sale_date (fst r)) end_date) query in
  let query :=
    match truthy_int category_id with
    | Some c => filter (fun r => Product.category_id (snd r) =? c) query
    | None => query
    end in
  let query :=
    match truthy_str platform with
    | Some pl => filter (fun r => String.eqb (Sale.platform (fst r)) pl) query
    | None => query
    end in
  map fst query.

(** [utcnow] is the value of [datetime.utcnow()] during the request (one
    value for its two calls). *)
Definition get_revenue_analysis (period : PeriodType)
  (start_date end_date : option datetime) (category_id : option Z)
  (platform : option string) (utcnow : datetime) (db : DB)
  : result (list RevenueAnalysis.t) :=
  start_date <- match start_date with
                | Some sd => Ok sd
                | None => datetime_sub utcnow (new_timedelta 30 0 0)
                end ;;
  let end_date := match end_date with Some ed => ed | None => utcnow end in
  let sales := revenue_query start_date end_date category_id platform db in
  grouped_sales <- group_sales period sales [] ;;
  result <- mapM (to_response period) grouped_sales ;;
  Ok (sorted by_start_date result).

(** ** Vocabulary of the properties *)

(** Dates and datetimes whose fields are in range (what the constructors of
    [date] and [datetime] accept, and what the store hands back). *)
Definition date_valid (d : date) : Prop :=
  check_date_fields (year d) (month d) (day d) = true.

Definition datetime_valid (dt : datetime) : Prop :=
  date_valid (dt_date dt)
  /\ check_time_fields (hour dt) (minute dt) (second dt) (microsecond dt) = true.

(** [ord2md] checked on one day of the year, and on every day of a common
    and of a leap year. *)
Definition ord2md_ok (leap : bool) (n : Z) : bool :=
  let '(m, d) := ord2md leap n in
  (1 <=? m) && (m <=? 12) && (1 <=? d)
  && (d <=? index DAYS_IN_MONTH m + b2z ((m =? 2) && leap))
  && (index DAYS_BEFORE_MONTH m + b2z ((m >? 2) && leap) + d =? n + 1).

Definition ord2md_table : bool :=
  forallb (fun k => ord2md_ok true (Z.of_nat k)
                    && ((365 <=? Z.of_nat k) || ord2md_ok false (Z.of_nat k)))
          (seq 0 366).

(** [sum(l)] of floats: from [0], left to right.  [zsum] is the sum of ints. *)
Definition fsum (l : list float) : float := fold_left PrimFloat.add l 0%float.
Definition zsum (l : list Z) : Z := fold_right Z.add 0 l.

(** The sale falls into the bucket of [key]. *)
Definition in_bucket (period : PeriodType) (key : date) (sale : Sale.t) : bool :=
  match bucket_key period (Sale.sale_date sale) with
  | Ok k => date_eqb k key
  | Raise _ => false
  end.

(** What the grouping loop accumulates for the sales [l] of one bucket. *)
Definition summary (l : list Sale.t) : grouped.data :=
  grouped.mk (fsum (map Sale.total_amount l)) (zsum (map Sale.quantity l))
             (Z.of_nat (List.length l)).

(** The invariant of the grouping loop after the sales [seen]. *)
Definition grouped_inv (period : PeriodType) (seen : list Sale.t)
  (g : grouped_sales_t) : Prop :=
  NoDup (map fst g)
  /\ (forall k d, In (k, d) g ->
        d = summary (filter (in_bucket period k) seen)
        /\ exists s, In s seen /\ bucket_key period (Sale.sale_date s) = Ok k)
  /\ (forall s, In s seen ->
        exists k, bucket_key period (Sale.sale_date s) = Ok k /\ In k (map fst g))
  /\ zsum (map (fun kd => grouped.total_sales (snd kd)) g)
     = zsum (map Sale.quantity seen).

(** [.first()] of the lookups the handlers make. *)
Definition category_by_id (db : DB) (category_id : Z) : option Category.t :=
  find (fun c => Category.id c =? category_id) (categories db).

Definition product_by_id (db : DB) (product_id : Z) : option Product.t :=
  find (fun p => Product.id p =? product_id) (products db).

Definition product_by_sku (db : DB) (sku : string) : option Product.t :=
  find (fun p => String.eqb (Product.sku p) sku) (products db).

Definition inventory_of (db : DB) (product_id : Z) : option Inventory.t :=
  find (fun i => Inventory.product_id i =? product_id) (inventory db).

(** The sales the revenue analysis is about, in the words of the
    specification: sale date within [[start_date, end_date]], the product of
    the sale in the category asked for, the sale on the platform asked for.
    A filter that is [None], [0] or the empty string is no filter. *)
Definition matches_filters (start_date end_date : datetime)
  (category_id : option Z) (platform : option string) (db : DB) (s : Sale.t)
  : bool :=
  datetime_leb start_date (Sale.sale_date s)
  && datetime_leb (Sale.sale_date s) end_date
  && match truthy_int category_id with
     | Some c => match product_by_id db (Sale.product_id s) with
                 | Some p => Product.category_id p =? c
                 | None => false
                 end
     | None => true
     end
  && match truthy_str platform with
     | Some pl => String.eqb (Sale.platform s) pl
     | None => true
     end.

Definition sales_matching (start_date end_date : datetime)
  (category_id : option Z) (platform : option string) (db : DB) : list Sale.t :=
  filter (matches_filters start_date end_date category_id platform db) (sales db).

(** The same test on a row of the join. *)
Definition pair_matches (start_date end_date : datetime)
  (category_id : option Z) (platform : option string) (r : Sale.t * Product.t)
  : bool :=
  datetime_leb start_date (Sale.sale_date (fst r))
  && datetime_leb (Sale.sale_date (fst r)) end_date
  && match truthy_int category_id with
     | Some c => Product.category_id (snd r) =? c
     | None => true
     end
  && match truthy_str platform with
     | Some pl => String.eqb (Sale.platform (fst r)) pl
     | None => true
     end.

Definition inventory_nonneg (db : DB) : Prop :=
  Forall (fun i => 0 <= Inventory.quantity i) (inventory db).

(** The constraints of the models that the revenue query relies on: product
    ids are unique (primary key) and every sale has its product (foreign
    key). *)
Definition store_wf (db : DB) : Prop :=
  NoDup (map Product.id (products db))
  /\ (forall s, In s (sales db) -> product_by_id db (Sale.product_id s) <> None).

(** Every order in which a list can be summed. *)
Fixpoint insert_everywhere {A : Type} (x : A) (l : list A) : list (list A) :=
  match l with
  | [] => [[x]]
  | y :: l' => (x :: l) :: map (cons y) (insert_everywhere x l')
  end.

Fixpoint permutations {A : Type} (l : list A) : list (list A) :=
  match l with
  | [] => [[]]
  | x :: l' => flat_map (insert_everywhere x) (permutations l')
  end.

(** ** Example stores and requests *)

#[local] Set Warnings "-inexact-float".

Definition at_time (y m d h mi : Z) : datetime := mkdatetime (mkdate y m d) h mi 0 0.

(** One category, one product with five units in stock. *)
Definition example_db : DB :=
  mkDB [Category.mk 1 "Electronics" None]
       [Product.mk 1 "Phone" None 9.5%float "X-1" 1 "Amazon" true]
       [Inventory.mk 1 1 5 10]
       [].

(** The same catalogue without the inventory row. *)
Definition no_inventory_db : DB :=
  mkDB (categories example_db) (products example_db) [] [].

Definition one_unit (unit_price : float) (sale_date : datetime) : SaleCreate.t :=
  SaleCreate.mk 1 1 unit_price sale_date "Amazon" None.

(** [example_db] after four sales of one unit: two on 2024-01-01 at 0.1 each,
    then one at 0.4 and one at 1.1 on 2024-01-02. *)
Definition january_db : DB :=
  let db := snd (create_sale (one_unit 0.1%float (at_time 2024 1 1 10 0)) example_db) in
  let db := snd (create_sale (one_unit 0.1%float (at_time 2024 1 1 15 30)) db) in
  let db := snd (create_sale (one_unit 0.4%float (at_time 2024 1 2 9 15)) db) in
  snd (create_sale (one_unit 1.1%float (at_time 2024 1 2 18 45)) db).

Definition january_start : datetime := at_time 2024 1 1 0 0.
Definition january_end : datetime := mkdatetime (mkdate 2024 1 31) 23 59 59 0.
Definition some_utcnow : datetime := at_time 2024 2 1 12 0.

(** Eight units of a product that has five. *)
Definition oversell : SaleCreate.t :=
  SaleCreate.mk 1 8 9.5%float (at_time 2024 3 5 12 0) "Amazon" (Some "ORD-1").

(** A second product under the SKU of the first. *)
Definition same_sku (category_id : Z) : ProductCreate.t :=
  ProductCreate.mk "Phone 2" None 19.99%float "X-1" category_id "Amazon" (Some 3) None.

(** ** The constraints of the store and the requests that write *)

(** What the models declare and the handlers rely on: primary keys, the
    [unique=True] columns, the foreign keys, and one Inventory row for every
    product. *)
Record store_ok (db : DB) : Prop := {
  pk_categories : NoDup (map Category.id (categories db));
  uq_category_name : NoDup (map Category.name (categories db));
  pk_products : NoDup (map Product.id (products db));
  uq_product_sku : NoDup (map Product.sku (products db));
  fk_product_category :
    incl (map Product.category_id (products db)) (map Category.id (categories db));
  pk_inventory : NoDup (map Inventory.id (inventory db));
  uq_inventory_product : NoDup (map Inventory.product_id (inventory db));
  fk_inventory_product :
    incl (map Inventory.product_id (inventory db)) (map Product.id (products db));
  pk_sales : NoDup (map Sale.id (sales db));
  fk_sale_product :
    incl (map Sale.product_id (sales db)) (map Product.id (products db));
  product_has_inventory :
    incl (map Product.id (products db)) (map Inventory.product_id (inventory db))
}.

(** The endpoints that write, as requests. *)
Inductive request : Type :=
| POST_categories (category : CategoryCreate.t)
| POST_products (product : ProductCreate.t)
| PUT_inventory (product_id : Z) (inventory_update : InventoryUpdate.t)
| POST_sales (sale : SaleCreate.t).

(** The store after a request, and after a sequence of requests. *)
Definition handle (r : request) (db : DB) : DB :=
  match r with
  | POST_categories category => snd (create_category category db)
  | POST_products product => snd (create_product product db)
  | PUT_inventory product_id inventory_update =>
      snd (update_inventory product_id inventory_update db)
  | POST_sales sale => snd (create_sale sale db)
  end.

Definition serve (rs : list request) (db : DB) : DB :=
  fold_left (fun db r => handle r db) rs db.

Definition empty_db : DB := mkDB [] [] [] [].

(** The response of a request that writes is an exception. *)
Definition raises {A : Type} (r : result A) : Prop :=
  match r with
  | Ok _ => False
  | Raise _ => True
  end.

(** The filters of [get_sales] on a row of the join; a filter that is [None]
    (or falsy, for the ids and the platform) lets every row pass. *)
Definition sale_listed (start_date end_date : option datetime)
  (product_id category_id : option Z) (platform : option string)
  (r : Sale.t * Product.t) : bool :=
  match start_date with
  | Some sd => datetime_leb sd (Sale.sale_date (fst r))
  | None => true
  end
  && match end_date with
     | Some ed => datetime_leb (Sale.sale_date (fst r)) ed
     | None => true
     end
  && match truthy_int product_id with
     | Some pid => Sale.product_id (fst r) =? pid
     | None => true
     end
  && match truthy_int category_id with
     | Some c => Product.category_id (snd r) =? c
     | None => true
     end
  && match truthy_str platform with
     | Some pl => String.eqb (Sale.platform (fst r)) pl
     | None => true
     end.

(** Newest first, and oldest first. *)
Definition newest_first (a b : Sale.t) : Prop :=
  datetime_leb (Sale.sale_date b) (Sale.sale_date a) = true.

Definition starts_before (a b : RevenueAnalysis.t) : Prop :=
  datetime_leb (RevenueAnalysis.start_date a) (RevenueAnalysis.start_date b) = true.

(** Forty units on hand, the threshold kept. *)
Definition restock : InventoryUpdate.t := InventoryUpdate.mk 40 None.

(** * Properties *)

(** ** The calendar *)

Lemma ord2md_table_true : ord2md_table = true.
Proof. vm_compute. reflexivity. Qed.

Lemma ord2md_ok_range leap n :
  0 <= n < 365 + b2z leap -> ord2md_ok leap n = true.
Proof.
  intros Hn.
  pose proof ord2md_table_true as T. unfold ord2md_table in T.
  rewrite forallb_forall in T.
  specialize (T (Z.to_nat n)).
  rewrite Z2Nat.id in T by lia.
  assert (Hin : In (Z.to_nat n) (seq 0 366)).
  { apply in_seq. destruct leap; simpl in Hn; lia. }
  apply T in Hin. apply andb_true_iff in Hin. destruct Hin as [Ht Hf].
  destruct leap; [exact Ht|].
  apply orb_true_iff in Hf. destruct Hf as [Hf|Hf]; [|exact Hf].
  simpl in Hn. apply Z.leb_le in Hf. lia.
Qed.

Lemma is_leap_true y :
  is_leap y = true <-> y mod 4 = 0 /\ (y mod 100 <> 0 \/ y mod 400 = 0).
Proof.
  unfold is_leap.
  rewrite andb_true_iff, orb_true_iff, negb_true_iff, !Z.eqb_eq, Z.eqb_neq.
  tauto.
Qed.

Lemma is_leap_false y :
  is_leap y = false <-> y mod 4 <> 0 \/ (y mod 100 = 0 /\ y mod 400 <> 0).
Proof.
  unfold is_leap.
  rewrite andb_false_iff, orb_false_iff, negb_false_iff, !Z.eqb_eq, !Z.eqb_neq.
  tauto.
Qed.

Lemma days_before_year_succ y :
  days_before_year (y + 1) = days_before_year y + 365 + b2z (is_leap y).
Proof.
  unfold days_before_year.
  replace (y + 1 - 1) with y by lia.
  destruct (is_leap y) eqn:E.
  - apply is_leap_true in E. simpl b2z. Z.div_mod_to_equations. lia.
  - apply is_leap_false in E. simpl b2z. Z.div_mod_to_equations. lia.
Qed.

Lemma days_in_month_alt y m :
  days_in_month y m = index DAYS_IN_MONTH m + b2z ((m =? 2) && is_leap y).
Proof.
  unfold days_in_month.
  destruct (m =? 2) eqn:Em; simpl andb.
  - apply Z.eqb_eq in Em. subst m. destruct (is_leap y); reflexivity.
  - simpl. lia.
Qed.

Lemma ord2ymd_spec n :
  1 <= n ->
  let '(y, m, d) := ord2ymd n in
  ymd2ord y m d = n /\ 1 <= y /\ 1 <= m <= 12 /\ 1 <= d <= days_in_month y m
  /\ (n <= MAXORDINAL -> y <= MAXYEAR).
Proof.
  intros Hn. unfold ord2ymd, DI400Y, DI100Y, DI4Y, MAXORDINAL, MAXYEAR. cbv zeta.
  set (n0 := n - 1).
  set (n400 := n0 / 146097). set (r1 := n0 mod 146097).
  set (n100 := r1 / 36524). set (r2 := r1 mod 36524).
  set (n4 := r2 / 1461). set (r3 := r2 mod 1461).
  set (n1 := r3 / 365). set (r4 := r3 mod 365).
  assert (E1 : n0 = 146097 * n400 + r1 /\ 0 <= r1 < 146097).
  { split; [apply Z.div_mod; lia | apply Z.mod_pos_bound; lia]. }
  assert (E2 : r1 = 36524 * n100 + r2 /\ 0 <= r2 < 36524).
  { split; [apply Z.div_mod; lia | apply Z.mod_pos_bound; lia]. }
  assert (E3 : r2 = 1461 * n4 + r3 /\ 0 <= r3 < 1461).
  { split; [apply Z.div_mod; lia | apply Z.mod_pos_bound; lia]. }
  assert (E4 : r3 = 365 * n1 + r4 /\ 0 <= r4 < 365).
  { split; [apply Z.div_mod; lia | apply Z.mod_pos_bound; lia]. }
  assert (H0 : n0 = n - 1) by reflexivity.
  clearbody n0 n400 r1 n100 r2 n4 r3 n1 r4.
  destruct ((n1 =? 4) || (n100 =? 4)) eqn:Esp.
  - (* the last day of a 4-year or 400-year cycle *)
    set (y := n400 * 400 + 1 + (n100 * 100 + n4 * 4 + n1) - 1).
    assert (Hy : y = 400 * n400 + 100 * n100 + 4 * n4 + n1) by (unfold y; lia).
    clearbody y.
    apply orb_true_iff in Esp. rewrite !Z.eqb_eq in Esp.
    assert (Hl : is_leap y = true).
    { apply is_leap_true.
      destruct Esp as [Esp|Esp].
      - assert (n100 <= 3 /\ 0 <= n100 /\ 0 <= n4 <= 23 /\ r4 = 0) as (?&?&?&?) by lia.
        assert (y mod 4 = 0 /\ y mod 100 = 4 * n4 + 4) as [? ?]; [|lia].
        subst y n1. split.
        + replace (400 * n400 + 100 * n100 + 4 * n4 + 4) with ((100 * n400 + 25 * n100 + n4 + 1) * 4) by lia.
          apply Z.mod_mul. lia.
        + replace (400 * n400 + 100 * n100 + 4 * n4 + 4) with ((4 * n4 + 4) + (4 * n400 + n100) * 100) by lia.
          rewrite Z.mod_add by lia. apply Z.mod_small. lia.
      - assert (n4 = 0 /\ n1 = 0 /\ r4 = 0) as (?&?&?) by lia.
        assert (y mod 4 = 0 /\ y mod 400 = 0) as [? ?]; [|lia].
        subst. split.
        + replace (400 * n400 + 100 * 4 + 4 * 0 + 0) with ((100 * n400 + 100) * 4) by lia.
          apply Z.mod_mul. lia.
        + replace (400 * n400 + 100 * 4 + 4 * 0 + 0) with ((n400 + 1) * 400) by lia.
          apply Z.mod_mul. lia. }
    unfold ymd2ord, days_before_month, days_before_year. rewrite days_in_month_alt, Hl.
    simpl.
    assert (Hb : 0 <= n100 <= 4 /\ 0 <= n4 <= 24 /\ 0 <= n1 <= 4) by lia.
    assert (Hq : (y - 1) / 4 = 100 * n400 + 25 * n100 + n4 + (n1 - 1) / 4
                 /\ (y - 1) / 100 = 4 * n400 + n100 + (4 * n4 + n1 - 1) / 100
                 /\ (y - 1) / 400 = n400 + (100 * n100 + 4 * n4 + n1 - 1) / 400).
    { subst y. repeat split.
      - replace (400 * n400 + 100 * n100 + 4 * n4 + n1 - 1)
          with ((n1 - 1) + (100 * n400 + 25 * n100 + n4) * 4) by lia.
        rewrite Z.div_add by lia. lia.
      - replace (400 * n400 + 100 * n100 + 4 * n4 + n1 - 1)
          with ((4 * n4 + n1 - 1) + (4 * n400 + n100) * 100) by lia.
        rewrite Z.div_add by lia. lia.
      - replace (400 * n400 + 100 * n100 + 4 * n4 + n1 - 1)
          with ((100 * n100 + 4 * n4 + n1 - 1) + n400 * 400) by lia.
        rewrite Z.div_add by lia. lia. }
    destruct Hq as (Hq4 & Hq100 & Hq400). rewrite Hq4, Hq100, Hq400.
    change (index DAYS_IN_MONTH 12) with 31.
    repeat split; try lia.
    + destruct Esp as [Esp|Esp].
      * assert (n100 <= 3 /\ 0 <= n4 <= 23 /\ r4 = 0) as (?&?&?) by lia.
        subst n1.
        replace ((4 - 1) / 4) with 0 by reflexivity.
        rewrite (Z.div_small (4 * n4 + 4 - 1) 100) by lia.
        rewrite (Z.div_small (100 * n100 + 4 * n4 + 4 - 1) 400) by lia.
        lia.
      * assert (n4 = 0 /\ n1 = 0 /\ r4 = 0 /\ r2 = 0 /\ r3 = 0) as (?&?&?&?&?) by lia.
        subst n4 n1 n100.
        change ((0 - 1) / 4) with (-1).
        change ((4 * 0 + 0 - 1) / 100) with (-1).
        change ((100 * 4 + 4 * 0 + 0 - 1) / 400) with 0.
        lia.
  - apply orb_false_iff in Esp. rewrite !Z.eqb_neq in Esp.
    set (y := n400 * 400 + 1 + (n100 * 100 + n4 * 4 + n1)).
    assert (Hy : y = 400 * n400 + 100 * n100 + 4 * n4 + n1 + 1) by (unfold y; lia).
    clearbody y.
    set (leapyear := (n1 =? 3) && (negb (n4 =? 24) || (n100 =? 3))).
    assert (Hl : is_leap y = leapyear).
    { unfold leapyear.
      destruct (is_leap y) eqn:E; symmetry.
      - apply is_leap_true in E.
        rewrite andb_true_iff, orb_true_iff, negb_true_iff, !Z.eqb_eq, Z.eqb_neq.
        Z.div_mod_to_equations. lia.
      - apply is_leap_false in E.
        rewrite andb_false_iff, orb_false_iff, negb_false_iff, !Z.eqb_eq, !Z.eqb_neq.
        Z.div_mod_to_equations. lia. }
    clearbody leapyear.
    pose proof (ord2md_ok_range leapyear r4) as Hok.
    unfold ord2md_ok in Hok.
    destruct (ord2md leapyear r4) as [m d].
    assert (Hr : 0 <= r4 < 365 + b2z leapyear) by (destruct leapyear; simpl; lia).
    apply Hok in Hr.
    rewrite !andb_true_iff, !Z.leb_le, Z.eqb_eq in Hr.
    destruct Hr as [[[[Hm1 Hm2] Hd1] Hd2] Hsum].
    unfold ymd2ord, days_before_month, days_before_year.
    rewrite days_in_month_alt, Hl.
    repeat split; try lia.
    Z.div_mod_to_equations. lia.
Qed.

Lemma check_date_fields_true y m d :
  check_date_fields y m d = true <->
  1 <= y <= 9999 /\ 1 <= m <= 12 /\ 1 <= d <= days_in_month y m.
Proof.
  unfold check_date_fields, MINYEAR, MAXYEAR.
  rewrite !andb_true_iff, !Z.leb_le. tauto.
Qed.

Ltac month_cases m :=
  let H := fresh in
  assert (H : m = 1 \/ m = 2 \/ m = 3 \/ m = 4 \/ m = 5 \/ m = 6 \/ m = 7
              \/ m = 8 \/ m = 9 \/ m = 10 \/ m = 11 \/ m = 12) by lia;
  repeat (destruct H as [H | H]); subst m.

Ltac table_values :=
  cbv [index DAYS_BEFORE_MONTH DAYS_IN_MONTH nth Z.to_nat Pos.to_nat
       Pos.iter_op Nat.add Init.Nat.add b2z andb Z.eqb Z.gtb Z.compare
       Pos.compare Pos.compare_cont Pos.eqb] in *.

Lemma day_of_year_bounds y m d :
  1 <= m <= 12 -> 1 <= d <= days_in_month y m ->
  1 <= days_before_month y m + d <= 365 + b2z (is_leap y).
Proof.
  unfold days_before_month, days_in_month. intros Hm Hd.
  destruct (is_leap y); month_cases m; table_values; lia.
Qed.

Lemma days_before_year_mono a b :
  a <= b -> days_before_year a <= days_before_year b.
Proof.
  intros Hab. replace b with (a + Z.of_nat (Z.to_nat (b - a))) by lia.
  induction (Z.to_nat (b - a)) as [|k IH].
  - rewrite Z.add_0_r. lia.
  - rewrite Nat2Z.inj_succ, <- Z.add_1_r, Z.add_assoc, days_before_year_succ.
    destruct (is_leap (a + Z.of_nat k)); simpl b2z; lia.
Qed.

Lemma toordinal_range d :
  date_valid d -> 1 <= toordinal d <= MAXORDINAL.
Proof.
  unfold date_valid, toordinal, ymd2ord. rewrite check_date_fields_true.
  intros (Hy & Hm & Hd).
  pose proof (day_of_year_bounds _ _ _ Hm Hd) as Hb.
  pose proof (days_before_year_mono 1 (year d) ltac:(lia)) as H1.
  pose proof (days_before_year_mono (year d + 1) 10000 ltac:(lia)) as H2.
  rewrite days_before_year_succ in H2.
  change (days_before_year 1) with 0 in H1.
  change (days_before_year 10000) with 3652059 in H2.
  unfold MAXORDINAL. lia.
Qed.

Lemma toordinal_fromordinal n : 1 <= n -> toordinal (fromordinal n) = n.
Proof.
  intros Hn. pose proof (ord2ymd_spec n Hn) as H.
  unfold toordinal, fromordinal.
  destruct (ord2ymd n) as [[y m] d]. simpl. tauto.
Qed.

Lemma fromordinal_valid n :
  1 <= n <= MAXORDINAL -> date_valid (fromordinal n).
Proof.
  intros [Hn Hmax]. pose proof (ord2ymd_spec n Hn) as H.
  unfold date_valid, fromordinal.
  destruct (ord2ymd n) as [[y m] d]. simpl.
  apply check_date_fields_true. unfold MAXYEAR in H. intuition lia.
Qed.

Lemma toordinal_inj a b :
  date_valid a -> date_valid b -> toordinal a = toordinal b -> a = b.
Proof.
  destruct a as [y1 m1 d1], b as [y2 m2 d2].
  unfold date_valid, toordinal, ymd2ord. simpl.
  rewrite !check_date_fields_true.
  intros (Hy1 & Hm1 & Hd1) (Hy2 & Hm2 & Hd2) Heq.
  pose proof (day_of_year_bounds _ _ _ Hm1 Hd1) as Hb1.
  pose proof (day_of_year_bounds _ _ _ Hm2 Hd2) as Hb2.
  assert (Hy : y1 = y2).
  { destruct (Z.lt_trichotomy y1 y2) as [Hlt | [He | Hgt]]; [|exact He|].
    - pose proof (days_before_year_mono (y1 + 1) y2 ltac:(lia)) as Hmono.
      rewrite days_before_year_succ in Hmono. lia.
    - pose proof (days_before_year_mono (y2 + 1) y1 ltac:(lia)) as Hmono.
      rewrite days_before_year_succ in Hmono. lia. }
  subst y2.
  assert (Hmd : m1 = m2 /\ d1 = d2); [|destruct Hmd; congruence].
  assert (Heq' : days_before_month y1 m1 + d1 = days_before_month y1 m2 + d2) by lia.
  clear Heq Hb1 Hb2. revert Hd1 Hd2 Heq'.
  unfold days_before_month, days_in_month.
  destruct (is_leap y1); month_cases m1; month_cases m2; table_values; lia.
Qed.

Lemma fromordinal_toordinal d : date_valid d -> fromordinal (toordinal d) = d.
Proof.
  intros Hd. pose proof (toordinal_range d Hd) as Hr.
  apply toordinal_inj; [apply fromordinal_valid; exact Hr | exact Hd |].
  apply toordinal_fromordinal. lia.
Qed.

Lemma new_timedelta_days d : new_timedelta d 0 0 = mktimedelta d 0 0.
Proof.
  unfold new_timedelta.
  change (0 / 1000000) with 0. change (0 mod 1000000) with 0.
  change ((0 + 0) / 86400) with 0. change ((0 + 0) mod 86400) with 0.
  rewrite Z.add_0_r. reflexivity.
Qed.

Lemma weekday_range d : 0 <= weekday d <= 6.
Proof.
  unfold weekday. pose proof (Z.mod_pos_bound (toordinal d + 6) 7). lia.
Qed.

Lemma date_add_days d n :
  date_valid d -> 1 <= toordinal d + n <= MAXORDINAL ->
  date_add d (mktimedelta n 0 0) = Ok (fromordinal (toordinal d + n)).
Proof.
  intros Hd Hr. unfold date_add. simpl days.
  replace (0 <? toordinal d + n) with true by (symmetry; apply Z.ltb_lt; lia).
  replace (toordinal d + n <=? MAXORDINAL) with true by (symmetry; apply Z.leb_le; lia).
  reflexivity.
Qed.

Lemma bucket_key_weekly dt :
  datetime_valid dt ->
  exists key,
    bucket_key weekly dt = Ok key /\ date_valid key /\ weekday key = 0
    /\ toordinal key = toordinal (dt_date dt) - weekday (dt_date dt).
Proof.
  intros [Hd _]. set (d := dt_date dt) in *.
  pose proof (toordinal_range d Hd) as Hr.
  pose proof (weekday_range d) as Hw.
  assert (Hlow : 1 <= toordinal d - weekday d).
  { unfold weekday in *. Z.div_mod_to_equations. lia. }
  exists (fromordinal (toordinal d - weekday d)).
  split; [|split; [|split]].
  - unfold bucket_key, date_sub. fold d. rewrite !new_timedelta_days. cbn [days].
    rewrite date_add_days; [reflexivity | exact Hd | lia].
  - apply fromordinal_valid. lia.
  - unfold weekday at 1. rewrite toordinal_fromordinal by lia.
    unfold weekday. Z.div_mod_to_equations. lia.
  - apply toordinal_fromordinal. lia.
Qed.

Lemma bucket_key_monthly dt :
  datetime_valid dt ->
  bucket_key monthly dt = Ok (mkdate (year (dt_date dt)) (month (dt_date dt)) 1).
Proof.
  intros [Hd Ht]. unfold bucket_key, datetime_replace_md, new_datetime.
  unfold date_valid in Hd. rewrite check_date_fields_true in Hd.
  assert (Hc : check_date_fields (year (dt_date dt)) (month (dt_date dt)) 1 = true).
  { apply check_date_fields_true. lia. }
  rewrite Hc, Ht. reflexivity.
Qed.

Lemma days_in_month_jan y : days_in_month y 1 = 31.
Proof. reflexivity. Qed.

Lemma bucket_key_annual dt :
  datetime_valid dt ->
  bucket_key annual dt = Ok (mkdate (year (dt_date dt)) 1 1).
Proof.
  intros [Hd Ht]. unfold bucket_key, datetime_replace_md, new_datetime.
  unfold date_valid in Hd. rewrite check_date_fields_true in Hd.
  assert (Hc : check_date_fields (year (dt_date dt)) 1 1 = true).
  { apply check_date_fields_true. rewrite days_in_month_jan. lia. }
  rewrite Hc, Ht. reflexivity.
Qed.

(** For every period the key is a valid date, not after the sale's date and
    in the sale's year or the one before. *)
Lemma bucket_key_valid period dt :
  datetime_valid dt ->
  exists key, bucket_key period dt = Ok key /\ date_valid key
              /\ toordinal key <= toordinal (dt_date dt).
Proof.
  intros Hv. pose proof Hv as [Hd Ht].
  pose proof Hd as Hd'. unfold date_valid in Hd'. rewrite check_date_fields_true in Hd'.
  destruct period.
  - exists (dt_date dt). simpl. repeat split; [exact Hd | lia].
  - destruct (bucket_key_weekly dt Hv) as [key (Hk & Hkv & _ & Ho)].
    exists key. pose proof (weekday_range (dt_date dt)). repeat split; auto; lia.
  - exists (mkdate (year (dt_date dt)) (month (dt_date dt)) 1).
    split; [apply bucket_key_monthly; exact Hv|]. split.
    + apply check_date_fields_true. simpl. lia.
    + unfold toordinal, ymd2ord. simpl. lia.
  - exists (mkdate (year (dt_date dt)) 1 1).
    split; [apply bucket_key_annual; exact Hv|]. split.
    + apply check_date_fields_true. simpl. rewrite days_in_month_jan. lia.
    + unfold toordinal, ymd2ord. simpl.
      pose proof (day_of_year_bounds (year (dt_date dt)) (month (dt_date dt))
                    (day (dt_date dt)) ltac:(lia) ltac:(lia)).
      change (days_before_month (year (dt_date dt)) 1) with 0. lia.
Qed.

Lemma toordinal_before_last_year d :
  date_valid d -> year d < MAXYEAR -> toordinal d <= MAXORDINAL - 365.
Proof.
  intros Hd Hy. pose proof Hd as Hd'.
  unfold date_valid in Hd'. rewrite check_date_fields_true in Hd'.
  destruct Hd' as (Hy' & Hm & Hdd).
  pose proof (day_of_year_bounds _ _ _ Hm Hdd) as Hb.
  pose proof (days_before_year_mono (year d + 1) 9999 ltac:(unfold MAXYEAR in Hy; lia)) as H2.
  rewrite days_before_year_succ in H2.
  change (days_before_year 9999) with 3651694 in H2.
  unfold toordinal, ymd2ord, MAXORDINAL. lia.
Qed.

Lemma new_timedelta_normal d s us :
  0 <= s < 86400 -> 0 <= us < 1000000 ->
  new_timedelta d s us = mktimedelta d s us.
Proof.
  intros Hs Hus. unfold new_timedelta.
  rewrite (Z.div_small us), (Z.mod_small us), Z.add_0_r by lia.
  rewrite (Z.div_small s), (Z.mod_small s), Z.add_0_r by lia.
  reflexivity.
Qed.

Lemma datetime_add_midnight d t :
  0 <= seconds t < 86400 -> 0 <= microseconds t < 1000000 ->
  1 <= toordinal d + days t <= MAXORDINAL ->
  datetime_add (combine_min d) t =
  Ok (mkdatetime (fromordinal (toordinal d + days t))
        (seconds t / 3600) ((seconds t mod 3600) / 60) ((seconds t mod 3600) mod 60)
        (microseconds t)).
Proof.
  intros Hs Hus Hr. unfold datetime_add, combine_min. cbn [dt_date hour minute second microsecond].
  change (0 * 3600 + 0 * 60 + 0) with 0.
  rewrite new_timedelta_days. unfold timedelta_add. cbn [days seconds microseconds].
  rewrite !Z.add_0_l, new_timedelta_normal by assumption.
  cbn [days seconds microseconds].
  replace (0 <? toordinal d + days t) with true by (symmetry; apply Z.ltb_lt; lia).
  replace (toordinal d + days t <=? MAXORDINAL) with true by (symmetry; apply Z.leb_le; lia).
  reflexivity.
Qed.

(** The end of a bucket of [n] days that starts at [key]. *)
Lemma period_end_days key n :
  date_valid key -> 1 <= n -> toordinal key + n <= MAXORDINAL ->
  (a <- datetime_add (combine_min key) (new_timedelta n 0 0) ;;
   sub_timedelta (PDateTime a) (new_timedelta 0 1 0))
  = Ok (PDateTime (mkdatetime (fromordinal (toordinal key + (n - 1))) 23 59 59 0)).
Proof.
  intros Hk Hn Hmax. pose proof (toordinal_range key Hk) as Hr.
  rewrite new_timedelta_days.
  rewrite datetime_add_midnight by (cbn [days seconds microseconds]; lia).
  cbn [days seconds microseconds bind].
  change (0 / 3600) with 0. change (0 mod 3600 / 60) with 0.
  change ((0 mod 3600) mod 60) with 0.
  change (mkdatetime (fromordinal (toordinal key + n)) 0 0 0 0)
    with (combine_min (fromordinal (toordinal key + n))).
  unfold sub_timedelta, datetime_sub.
  change (timedelta_neg (new_timedelta 0 1 0)) with (mktimedelta (-1) 86399 0).
  rewrite datetime_add_midnight;
    cbn [days seconds microseconds]; rewrite ?toordinal_fromordinal by lia; try lia.
  cbn [bind]. replace (toordinal key + n + -1) with (toordinal key + (n - 1)) by lia.
  reflexivity.
Qed.

Lemma period_end_daily key :
  date_valid key -> toordinal key + 1 <= MAXORDINAL ->
  period_end daily key = Ok (PDateTime (mkdatetime key 23 59 59 0)).
Proof.
  intros Hk Hmax. unfold period_end.
  rewrite (period_end_days key 1) by (auto; lia).
  replace (toordinal key + (1 - 1)) with (toordinal key) by lia.
  rewrite fromordinal_toordinal by exact Hk. reflexivity.
Qed.

Lemma period_end_weekly key :
  date_valid key -> toordinal key + 7 <= MAXORDINAL ->
  period_end weekly key
  = Ok (PDateTime (mkdatetime (fromordinal (toordinal key + 6)) 23 59 59 0)).
Proof.
  intros Hk Hmax. unfold period_end.
  rewrite (period_end_days key 7) by (auto; lia). reflexivity.
Qed.

(** [date.replace(hour=...)] ends every monthly bucket in an exception. *)
Lemma period_end_monthly_raises key : exists e, period_end monthly key = Raise e.
Proof.
  unfold period_end.
  destruct (date_replace key None None (Some 28)) as [d28|e]; simpl; [|eauto].
  destruct (date_add d28 (new_timedelta 4 0 0)) as [next_month|e]; simpl; [|eauto].
  destruct (date_sub next_month (new_timedelta (day next_month) 0 0)) as [l|e];
    simpl; eauto.
Qed.

Lemma date_sub_seconds d s :
  date_valid d -> 0 <= s < 86400 ->
  date_sub d (new_timedelta 0 s 0) = Ok d.
Proof.
  intros Hd Hs. pose proof (toordinal_range d Hd) as Hr.
  unfold date_sub. rewrite !new_timedelta_normal by lia. cbn [days].
  change (- 0) with 0.
  rewrite date_add_days by (auto; lia).
  rewrite Z.add_0_r, fromordinal_toordinal by exact Hd. reflexivity.
Qed.

(** The annual end: a [date] minus one second is the same [date]. *)
Lemma period_end_annual key pe :
  period_end annual key = Ok pe ->
  pe = PDate (mkdate (year key + 1) (month key) (day key)).
Proof.
  unfold period_end, date_replace, new_date.
  destruct (check_date_fields (year key + 1) (month key) (day key)) eqn:Hc;
    simpl; [|discriminate].
  rewrite (date_sub_seconds (mkdate (year key + 1) (month key) (day key)))
    by (auto; lia).
  simpl. congruence.
Qed.

Lemma period_end_annual_Ok y :
  1 <= y < MAXYEAR ->
  period_end annual (mkdate y 1 1) = Ok (PDate (mkdate (y + 1) 1 1)).
Proof.
  intros Hy. unfold period_end, date_replace, new_date. cbn [year month day].
  assert (Hc : check_date_fields (y + 1) 1 1 = true).
  { apply check_date_fields_true. rewrite days_in_month_jan. unfold MAXYEAR in Hy. lia. }
  rewrite Hc. simpl bind.
  rewrite (date_sub_seconds (mkdate (y + 1) 1 1)) by (auto; lia). reflexivity.
Qed.

(** ** The grouping loop *)

Lemma date_eqb_eq a b : date_eqb a b = true <-> a = b.
Proof.
  destruct a, b. unfold date_eqb. simpl.
  rewrite !andb_true_iff, !Z.eqb_eq. split.
  - intros [[-> ->] ->]. reflexivity.
  - intros H. injection H. auto.
Qed.

Lemma date_eqb_refl a : date_eqb a a = true.
Proof. apply date_eqb_eq. reflexivity. Qed.

Lemma date_eqb_neq a b : date_eqb a b = false <-> a <> b.
Proof.
  rewrite <- date_eqb_eq. destruct (date_eqb a b); split; congruence.
Qed.

Lemma has_key_In g k : has_key g k = true <-> In k (map fst g).
Proof.
  unfold has_key. rewrite existsb_exists, in_map_iff. split.
  - intros [kd [Hin He]]. apply date_eqb_eq in He. exists kd. auto.
  - intros [kd [He Hin]]. exists kd. split; [exact Hin|]. apply date_eqb_eq. auto.
Qed.

Lemma update_key_keys g k f : map fst (update_key g k f) = map fst g.
Proof.
  induction g as [|[k' d] g IH]; simpl; [reflexivity|].
  destruct (date_eqb k k'); simpl; [reflexivity | f_equal; exact IH].
Qed.

Lemma update_key_In g k f k' d' :
  NoDup (map fst g) ->
  In (k', d') (update_key g k f) ->
  (k' <> k /\ In (k', d') g) \/ (k' = k /\ exists d, In (k, d) g /\ d' = f d).
Proof.
  induction g as [|[k0 d0] g IH]; simpl; [tauto|].
  intros Hnd Hin. inversion Hnd as [|? ? Hnotin Hnd']; subst.
  destruct (date_eqb k k0) eqn:E.
  - apply date_eqb_eq in E. subst k0. destruct Hin as [Hin|Hin].
    + injection Hin as <- <-. right. split; [reflexivity|]. exists d0. auto.
    + left. split; [|auto]. intros ->. apply Hnotin.
      apply in_map_iff. exists (k, d'). auto.
  - apply date_eqb_neq in E. destruct Hin as [Hin|Hin].
    + injection Hin as <- <-. left. split; [congruence | auto].
    + destruct (IH Hnd' Hin) as [[Hne Hi] | [He [d [Hi Hd]]]].
      * left. auto.
      * right. split; [exact He|]. exists d. auto.
Qed.

Lemma update_key_append_new g k d f :
  has_key g k = false ->
  update_key (g ++ [(k, d)]) k f = g ++ [(k, f d)].
Proof.
  induction g as [|[k0 d0] g IH]; simpl; intros H.
  - rewrite date_eqb_refl. reflexivity.
  - unfold has_key in H. simpl in H. apply orb_false_iff in H. destruct H as [H1 H2].
    rewrite H1. f_equal. apply IH. exact H2.
Qed.

Lemma update_key_total_sales g k f q :
  has_key g k = true ->
  (forall d, grouped.total_sales (f d) = grouped.total_sales d + q) ->
  zsum (map (fun kd => grouped.total_sales (snd kd)) (update_key g k f))
  = zsum (map (fun kd => grouped.total_sales (snd kd)) g) + q.
Proof.
  intros Hk Hf. induction g as [|[k0 d0] g IH]; simpl in *.
  - unfold has_key in Hk. discriminate.
  - unfold has_key in Hk. simpl in Hk.
    destruct (date_eqb k k0) eqn:E; simpl.
    + rewrite Hf. unfold zsum. lia.
    + simpl in Hk. specialize (IH Hk). unfold zsum in *. lia.
Qed.

Lemma zsum_app a b : zsum (a ++ b) = zsum a + zsum b.
Proof. unfold zsum. induction a; simpl; lia. Qed.

Lemma fsum_snoc l x : fsum (l ++ [x]) = PrimFloat.add (fsum l) x.
Proof. unfold fsum. rewrite fold_left_app. reflexivity. Qed.

Lemma summary_snoc l s :
  summary (l ++ [s]) =
  grouped.mk (PrimFloat.add (grouped.total_revenue (summary l)) (Sale.total_amount s))
             (grouped.total_sales (summary l) + Sale.quantity s)
             (grouped.sales_count (summary l) + 1).
Proof.
  unfold summary. simpl. rewrite !map_app. simpl.
  rewrite fsum_snoc, zsum_app, length_app. simpl. f_equal; unfold zsum; simpl; lia.
Qed.

Section Grouping.

Variable period : PeriodType.

Lemma in_bucket_key s k k' :
  bucket_key period (Sale.sale_date s) = Ok k -> in_bucket period k' s = date_eqb k k'.
Proof. unfold in_bucket. intros ->. reflexivity. Qed.

Lemma grouped_inv_nil : grouped_inv period [] [].
Proof.
  unfold grouped_inv. simpl. repeat split; try constructor; intros; contradiction.
Qed.

Lemma grouped_inv_step seen g s k :
  grouped_inv period seen g ->
  bucket_key period (Sale.sale_date s) = Ok k ->
  grouped_inv period (seen ++ [s]) (add_sale g k s).
Proof.
  intros (Hnd & Hent & Hcov & Hsum) Hk.
  unfold add_sale.
  set (f := fun d => grouped.mk
              (PrimFloat.add (grouped.total_revenue d) (Sale.total_amount s))
              (grouped.total_sales d + Sale.quantity s) (grouped.sales_count d + 1)).
  destruct (has_key g k) eqn:Hhas.
  - (* the key is already there *)
    unfold grouped_inv. rewrite update_key_keys. split; [exact Hnd|]. split; [|split].
    + intros k' d' Hin.
      rewrite filter_app. simpl. rewrite (in_bucket_key _ _ _ Hk).
      destruct (update_key_In _ _ _ _ _ Hnd Hin) as [[Hne Hi] | [-> [d [Hi ->]]]].
      * destruct (Hent _ _ Hi) as [Hd [s0 [Hs0 Hk0]]].
        assert (E : date_eqb k k' = false) by (apply date_eqb_neq; congruence).
        rewrite E, app_nil_r. split; [exact Hd|].
        exists s0. split; [apply in_or_app; auto | exact Hk0].
      * destruct (Hent _ _ Hi) as [Hd _].
        rewrite date_eqb_refl, summary_snoc, <- Hd. split; [reflexivity|].
        exists s. split; [apply in_or_app; simpl; auto | exact Hk].
    + intros s0 Hs0. apply in_app_or in Hs0. destruct Hs0 as [Hs0 | [<- | []]].
      * apply Hcov. exact Hs0.
      * exists k. split; [exact Hk | apply has_key_In; exact Hhas].
    + rewrite (update_key_total_sales g k f (Sale.quantity s) Hhas) by reflexivity.
      rewrite map_app, zsum_app, Hsum. unfold zsum. simpl. lia.
  - (* a new key *)
    rewrite update_key_append_new by exact Hhas.
    assert (Hnotin : ~ In k (map fst g)).
    { intros Hin. apply has_key_In in Hin. congruence. }
    assert (Hnone : filter (in_bucket period k) seen = []).
    { destruct (filter (in_bucket period k) seen) as [|s0 l0] eqn:Ef; [reflexivity|].
      exfalso. assert (Hs0 : In s0 (filter (in_bucket period k) seen)).
      { rewrite Ef. simpl. auto. }
      apply filter_In in Hs0. destruct Hs0 as [Hs0 Hb].
      destruct (Hcov _ Hs0) as [k0 [Hk0 Hin0]].
      rewrite (in_bucket_key _ _ _ Hk0) in Hb. apply date_eqb_eq in Hb. subst k0.
      auto. }
    unfold grouped_inv. split; [|split; [|split]].
    + rewrite map_app. simpl. apply NoDup_app_remove_l || idtac.
      apply Permutation_NoDup with (l := k :: map fst g).
      * apply Permutation_cons_append.
      * constructor; assumption.
    + intros k' d' Hin. rewrite filter_app. simpl.
      rewrite (in_bucket_key _ _ _ Hk).
      apply in_app_or in Hin. destruct Hin as [Hi | [Hi | []]].
      * destruct (Hent _ _ Hi) as [Hd [s0 [Hs0 Hk0]]].
        assert (E : date_eqb k k' = false).
        { apply date_eqb_neq. intros ->. apply Hnotin.
          apply in_map_iff. exists (k', d'). auto. }
        rewrite E, app_nil_r. split; [exact Hd|].
        exists s0. split; [apply in_or_app; auto | exact Hk0].
      * injection Hi as <- <-. rewrite date_eqb_refl, Hnone. split.
        -- rewrite (summary_snoc [] s). reflexivity.
        -- exists s. split; [apply in_or_app; simpl; auto | exact Hk].
    + intros s0 Hs0. rewrite map_app. apply in_app_or in Hs0.
      destruct Hs0 as [Hs0 | [<- | []]].
      * destruct (Hcov _ Hs0) as [k0 [Hk0 Hin0]]. exists k0.
        split; [exact Hk0 | apply in_or_app; auto].
      * exists k. split; [exact Hk | apply in_or_app; simpl; auto].
    + rewrite !map_app, !zsum_app, Hsum. unfold zsum. simpl. lia.
Qed.

Lemma group_sales_inv rest : forall seen g g',
  grouped_inv period seen g ->
  group_sales period rest g = Ok g' ->
  grouped_inv period (seen ++ rest) g'.
Proof.
  induction rest as [|s rest IH]; simpl; intros seen g g' Hinv Hg.
  - injection Hg as <-. rewrite app_nil_r. exact Hinv.
  - destruct (bucket_key period (Sale.sale_date s)) as [k|e] eqn:Hk; simpl in Hg;
      [|discriminate].
    replace (seen ++ s :: rest) with ((seen ++ [s]) ++ rest)
      by (rewrite <- app_assoc; reflexivity).
    apply (IH _ _ _ (grouped_inv_step _ _ _ _ Hinv Hk) Hg).
Qed.

Lemma group_sales_total rest : forall g,
  (forall s, In s rest -> exists k, bucket_key period (Sale.sale_date s) = Ok k) ->
  exists g', group_sales period rest g = Ok g'.
Proof.
  induction rest as [|s rest IH]; simpl; intros g H.
  - exists g. reflexivity.
  - destruct (H s (or_introl eq_refl)) as [k ->]. simpl.
    apply IH. intros s0 Hs0. apply H. auto.
Qed.

End Grouping.

(** ** The query and the responses *)

Lemma mapM_Forall2 {A B} (f : A -> result B) l r :
  mapM f l = Ok r -> Forall2 (fun x y => f x = Ok y) l r.
Proof.
  revert r. induction l as [|x l IH]; simpl; intros r H.
  - injection H as <-. constructor.
  - destruct (f x) as [y|e] eqn:Hx; simpl in H; [|discriminate].
    destruct (mapM f l) as [ys|e]; simpl in H; [|discriminate].
    injection H as <-. constructor; auto.
Qed.

Lemma mapM_total {A B} (f : A -> result B) l :
  (forall x, In x l -> exists y, f x = Ok y) -> exists r, mapM f l = Ok r.
Proof.
  induction l as [|x l IH]; simpl; intros H.
  - eauto.
  - destruct (H x (or_introl eq_refl)) as [y ->].
    destruct IH as [r ->]; [intros; apply H; auto|]. simpl. eauto.
Qed.

Lemma insert_sorted_perm {A} (leb : A -> A -> bool) x l :
  Permutation (insert_sorted leb x l) (x :: l).
Proof.
  induction l as [|y l IH]; simpl; [reflexivity|].
  destruct (leb x y); [reflexivity|].
  rewrite IH. apply perm_swap.
Qed.

Lemma sorted_perm {A} (leb : A -> A -> bool) l : Permutation (sorted leb l) l.
Proof.
  unfold sorted. induction l as [|x l IH]; simpl; [reflexivity|].
  rewrite insert_sorted_perm. constructor. exact IH.
Qed.

Lemma zsum_perm a b : Permutation a b -> zsum a = zsum b.
Proof. unfold zsum. induction 1; simpl; lia. Qed.

Lemma to_response_fields period k d r :
  to_response period (k, d) = Ok r ->
  RevenueAnalysis.start_date r = combine_min k
  /\ RevenueAnalysis.total_revenue r = grouped.total_revenue d
  /\ RevenueAnalysis.total_sales r = grouped.total_sales d
  /\ exists pe, period_end period k = Ok pe
                /\ RevenueAnalysis.end_date r = validate_datetime pe.
Proof.
  unfold to_response. destruct (period_end period k) as [pe|e]; simpl; [|discriminate].
  intros H. injection H as <-. simpl. repeat split; eauto.
Qed.

Lemma to_response_total period k d pe :
  period_end period k = Ok pe -> exists r, to_response period (k, d) = Ok r.
Proof. unfold to_response. intros ->. simpl. eauto. Qed.

Lemma filter_filter {A} (f g : A -> bool) l :
  filter f (filter g l) = filter (fun x => g x && f x) l.
Proof.
  induction l as [|x l IH]; simpl; [reflexivity|].
  destruct (g x); simpl; [destruct (f x)|]; rewrite ?IH; reflexivity.
Qed.

Lemma revenue_query_filter sd ed c pl db :
  revenue_query sd ed c pl db
  = map fst (filter (pair_matches sd ed c pl) (join_sales_products db)).
Proof.
  unfold revenue_query, pair_matches. f_equal.
  destruct (truthy_int c), (truthy_str pl); rewrite ?filter_filter;
    apply filter_ext; intros [s0 p0]; simpl;
    rewrite ?andb_true_r, <- ?andb_assoc; reflexivity.
Qed.

Lemma filter_unique_id k (l : list Product.t) :
  NoDup (map Product.id l) ->
  filter (fun p => Product.id p =? k) l
  = match find (fun p => Product.id p =? k) l with Some p => [p] | None => [] end.
Proof.
  induction l as [|p l IH]; simpl; intros Hnd; [reflexivity|].
  inversion Hnd as [|? ? Hnotin Hnd']; subst.
  destruct (Product.id p =? k) eqn:E.
  - apply Z.eqb_eq in E. f_equal.
    destruct (filter (fun p0 => Product.id p0 =? k) l) as [|q l'] eqn:Ef; [reflexivity|].
    exfalso. assert (Hq : In q (filter (fun p0 => Product.id p0 =? k) l)).
    { rewrite Ef. simpl. auto. }
    apply filter_In in Hq. destruct Hq as [Hq Hk]. apply Z.eqb_eq in Hk.
    apply Hnotin. rewrite E, <- Hk. apply in_map. exact Hq.
  - apply IH. exact Hnd'.
Qed.

Lemma revenue_query_matching sd ed c pl db :
  NoDup (map Product.id (products db)) ->
  (forall s, In s (sales db) -> product_by_id db (Sale.product_id s) <> None) ->
  revenue_query sd ed c pl db = sales_matching sd ed c pl db.
Proof.
  intros Hnd Hfk. rewrite revenue_query_filter.
  unfold sales_matching, join_sales_products.
  induction (sales db) as [|s l IH]; simpl; [reflexivity|].
  rewrite filter_app, map_app, IH by (intros; apply Hfk; simpl; auto).
  rewrite filter_unique_id by exact Hnd.
  specialize (Hfk s (or_introl eq_refl)). unfold product_by_id in Hfk.
  unfold matches_filters at 2, product_by_id.
  destruct (find (fun p => Product.id p =? Sale.product_id s) (products db)) as [p|];
    [|congruence].
  simpl. unfold pair_matches at 1. simpl.
  match goal with |- map fst (if ?a then _ else _) ++ _ = (if ?b then _ else _) =>
    replace b with a; [destruct a; reflexivity|] end.
  destruct (truthy_int c); reflexivity.
Qed.

Lemma period_end_total period dt k :
  period <> monthly ->
  datetime_valid dt -> year (dt_date dt) < MAXYEAR ->
  bucket_key period dt = Ok k ->
  exists pe, period_end period k = Ok pe.
Proof.
  intros Hp Hv Hy Hk.
  destruct (bucket_key_valid period dt Hv) as [k' (Hk' & Hkv & Hle)].
  assert (k' = k) by congruence. subst k'.
  pose proof (toordinal_before_last_year _ (proj1 Hv) Hy) as Hb.
  destruct period.
  - rewrite period_end_daily; eauto. lia.
  - rewrite period_end_weekly; eauto. lia.
  - congruence.
  - rewrite bucket_key_annual in Hk by exact Hv. injection Hk as <-.
    rewrite period_end_annual_Ok; eauto.
    unfold date_valid in Hkv. rewrite check_date_fields_true in Hkv. simpl in Hkv. lia.
Qed.

Lemma Forall2_In_l {A B} (R : A -> B -> Prop) l r x :
  Forall2 R l r -> In x l -> exists y, In y r /\ R x y.
Proof.
  induction 1 as [|a b l r Hab H IH]; simpl; [tauto|].
  intros [<- | Hin]; [eauto|]. destruct (IH Hin) as [y [Hy HR]]. eauto.
Qed.

Lemma Forall2_In_r {A B} (R : A -> B -> Prop) l r y :
  Forall2 R l r -> In y r -> exists x, In x l /\ R x y.
Proof.
  induction 1 as [|a b l r Hab H IH]; simpl; [tauto|].
  intros [<- | Hin]; [eauto|]. destruct (IH Hin) as [x [Hx HR]]. eauto.
Qed.

Lemma responses_total_sales period g res :
  Forall2 (fun x y => to_response period x = Ok y) g res ->
  map RevenueAnalysis.total_sales res
  = map (fun kd => grouped.total_sales (snd kd)) g.
Proof.
  induction 1 as [|[k d] r g res Hr H IH]; simpl; [reflexivity|].
  destruct (to_response_fields _ _ _ _ Hr) as (_ & _ & Hts & _).
  rewrite Hts, IH. reflexivity.
Qed.

Lemma responses_start_date period g res :
  Forall2 (fun x y => to_response period x = Ok y) g res ->
  map RevenueAnalysis.start_date res = map combine_min (map fst g).
Proof.
  induction 1 as [|[k d] r g res Hr H IH]; simpl; [reflexivity|].
  destruct (to_response_fields _ _ _ _ Hr) as (Hsd & _).
  rewrite Hsd, IH. reflexivity.
Qed.

Lemma NoDup_map_combine_min l : NoDup l -> NoDup (map combine_min l).
Proof.
  induction 1 as [|x l Hx H IH]; simpl; constructor; [|exact IH].
  rewrite in_map_iff. intros [y [Hy Hin]]. injection Hy as ->. auto.
Qed.

Lemma to_response_monthly_raises item : exists e, to_response monthly item = Raise e.
Proof.
  destruct item as [k d]. unfold to_response.
  destruct (period_end_monthly_raises k) as [e ->]. simpl. eauto.
Qed.

Lemma mapM_monthly g res : mapM (to_response monthly) g = Ok res -> res = [].
Proof.
  destruct g as [|item g]; cbn [mapM].
  - intros H. injection H as <-. reflexivity.
  - destruct (to_response_monthly_raises item) as [e ->]. simpl. discriminate.
Qed.

Lemma bucket_key_annual_inv dt k :
  bucket_key annual dt = Ok k -> k = mkdate (year (dt_date dt)) 1 1.
Proof.
  unfold bucket_key, datetime_replace_md, new_datetime.
  destruct (_ && _); simpl; [|discriminate]. intros H. injection H as <-. reflexivity.
Qed.

(** ** The store *)

Lemma find_existsb {A} (f : A -> bool) l x : find f l = Some x -> existsb f l = true.
Proof.
  intros H. apply find_some in H. apply existsb_exists. exists x. exact H.
Qed.

Lemma find_update_row pid inv row l :
  find (fun i => Inventory.product_id i =? pid) l = Some inv ->
  Inventory.product_id row = pid ->
  find (fun i => Inventory.product_id i =? pid)
       (map (fun i => if Inventory.id i =? Inventory.id inv then row else i) l)
  = Some row.
Proof.
  intros Hfind Hrow.
  assert (Hr : (Inventory.product_id row =? pid) = true) by (apply Z.eqb_eq; exact Hrow).
  induction l as [|h l IH]; simpl in *; [discriminate|].
  destruct (Inventory.product_id h =? pid) eqn:Eh.
  - injection Hfind as ->. rewrite Z.eqb_refl, Hr. reflexivity.
  - destruct (Inventory.id h =? Inventory.id inv).
    + rewrite Hr. reflexivity.
    + rewrite Eh. apply IH. exact Hfind.
Qed.

Lemma update_row_nonneg db row :
  inventory_nonneg db -> 0 <= Inventory.quantity row ->
  inventory_nonneg (update_inventory_row db row).
Proof.
  unfold inventory_nonneg, update_inventory_row. simpl. intros H Hrow.
  apply Forall_forall. intros i Hi. apply in_map_iff in Hi.
  destruct Hi as [j [Hj Hin]].
  destruct (Inventory.id j =? Inventory.id row); subst i; [exact Hrow|].
  rewrite Forall_forall in H. apply H. exact Hin.
Qed.

Lemma clamp_max q : (if q <? 0 then 0 else q) = Z.max 0 q.
Proof. destruct (q <? 0) eqn:E; [apply Z.ltb_lt in E | apply Z.ltb_ge in E]; lia. Qed.

Lemma next_id_fresh ids x : In x ids -> x < next_id ids.
Proof.
  unfold next_id. induction ids as [|y ids IH]; cbn [fold_right In]; [tauto|].
  intros [-> | Hin]; [lia|]. specialize (IH Hin). lia.
Qed.

Lemma find_app_found {A} (f : A -> bool) l l' :
  find f l <> None -> find f (l ++ l') <> None.
Proof.
  induction l as [|x l IH]; simpl; [congruence|].
  destruct (f x); [congruence | exact IH].
Qed.

Lemma store_wf_add_product db row cats inv :
  store_wf db -> ~ In (Product.id row) (map Product.id (products db)) ->
  store_wf (mkDB cats (products db ++ [row]) inv (sales db)).
Proof.
  intros [Hnd Hfk] Hfresh. split; simpl.
  - rewrite map_app. simpl.
    apply (Permutation_NoDup (Permutation_cons_append _ _)).
    constructor; assumption.
  - intros s Hs. unfold product_by_id. simpl. apply find_app_found. apply Hfk. exact Hs.
Qed.

Lemma store_wf_add_sale db row cats inv :
  store_wf db -> product_by_id db (Sale.product_id row) <> None ->
  store_wf (mkDB cats (products db) inv (sales db ++ [row])).
Proof.
  intros [Hnd Hfk] Hrow. split; simpl; [exact Hnd|].
  intros s Hs. apply in_app_or in Hs. destruct Hs as [Hs | [<- | []]].
  - apply Hfk. exact Hs.
  - exact Hrow.
Qed.

Lemma store_wf_other_tables db cats inv :
  store_wf db -> store_wf (mkDB cats (products db) inv (sales db)).
Proof. intros H. exact H. Qed.

(** Every handler that writes keeps the store well formed. *)
Lemma store_wf_preserved db :
  store_wf db ->
  (forall category, store_wf (snd (create_category category db)))
  /\ (forall product, store_wf (snd (create_product product db)))
  /\ (forall product_id u, store_wf (snd (update_inventory product_id u db)))
  /\ (forall sale, store_wf (snd (create_sale sale db))).
Proof.
  intros Hwf. split; [|split; [|split]].
  - intros category. unfold create_category, insert_category.
    destruct (existsb _ (categories db)); [exact Hwf|].
    apply store_wf_other_tables. exact Hwf.
  - intros product. unfold create_product.
    destruct (find _ (categories db)); [|exact Hwf].
    destruct (find _ (products db)); [exact Hwf|].
    unfold insert_product. destruct (_ || _); [exact Hwf|].
    unfold insert_inventory. cbn [products inventory categories sales Product.id].
    match goal with |- context [existsb ?f ?l || negb ?b] =>
      destruct (existsb f l || negb b) end; cbn [snd];
      (apply store_wf_add_product; [exact Hwf|]; cbn [Product.id];
       intros Hin; apply next_id_fresh in Hin; lia).
  - intros product_id u. unfold update_inventory.
    destruct (find _ (inventory db)); [|exact Hwf].
    apply store_wf_other_tables. exact Hwf.
  - intros sale. unfold create_sale.
    destruct (find _ (products db)) as [p|] eqn:Hp; [|exact Hwf].
    unfold insert_sale. destruct (negb _); [exact Hwf|].
    cbn [products inventory categories sales].
    destruct (find _ (inventory db)); cbn [snd]; unfold update_inventory_row;
      cbn [products inventory categories sales];
      (apply store_wf_add_sale; [exact Hwf|]; unfold product_by_id;
       cbn [Sale.product_id]; congruence).
Qed.

Lemma store_wf_example : store_wf example_db.
Proof.
  split.
  - simpl. constructor; [intros []|constructor].
  - intros s [].
Qed.

Lemma store_wf_january : store_wf january_db.
Proof.
  unfold january_db. cbv zeta.
  repeat (apply store_wf_preserved). exact store_wf_example.
Qed.

(** ** The claims *)

(** C1, as amended.  For daily, weekly and annual granularity, over a well
    formed store (unique product ids, every sale with its product) and for
    matching sales with valid dates before the year 9999: the aggregation
    returns; the per-bucket [total_sales] add up exactly to the quantities of
    the sales in [[start_date, end_date]] that match the filters; the buckets
    have distinct starts and every matching sale falls in one of them; and the
    [total_revenue] of a bucket is the float sum, from 0 and in query order,
    of the [total_amount] of the matching sales of that bucket (so revenue is
    conserved bucket by bucket, up to the rounding of float addition). *)
Theorem revenue_conservation period start_date end_date category_id platform
    utcnow db :
  period <> monthly ->
  store_wf db ->
  (forall s, In s (sales_matching start_date end_date category_id platform db) ->
     datetime_valid (Sale.sale_date s)
     /\ year (dt_date (Sale.sale_date s)) < MAXYEAR) ->
  let matching := sales_matching start_date end_date category_id platform db in
  exists res,
    get_revenue_analysis period (Some start_date) (Some end_date)
                         category_id platform utcnow db = Ok res
    /\ zsum (map RevenueAnalysis.total_sales res) = zsum (map Sale.quantity matching)
    /\ NoDup (map RevenueAnalysis.start_date res)
    /\ (forall s, In s matching ->
          exists key b, bucket_key period (Sale.sale_date s) = Ok key
                        /\ In b res /\ RevenueAnalysis.start_date b = combine_min key)
    /\ (forall b, In b res ->
          exists key,
            RevenueAnalysis.start_date b = combine_min key
            /\ RevenueAnalysis.total_revenue b
               = fsum (map Sale.total_amount (filter (in_bucket period key) matching))
            /\ RevenueAnalysis.total_sales b
               = zsum (map Sale.quantity (filter (in_bucket period key) matching))).
Proof.
  intros Hp [Hnd Hfk] Hv matching.
  unfold get_revenue_analysis. cbn [bind].
  rewrite revenue_query_matching by assumption. fold matching.
  destruct (group_sales_total period matching []) as [g Hg].
  { intros s Hs. destruct (Hv s Hs) as [Hd _].
    destruct (bucket_key_valid period _ Hd) as [k [Hk _]]. eauto. }
  pose proof (group_sales_inv period matching [] [] g (grouped_inv_nil period) Hg)
    as (Hkeys & Hent & Hcov & Hsum).
  simpl in Hent, Hcov, Hsum.
  destruct (mapM_total (to_response period) g) as [res0 Hres0].
  { intros [k d] Hin. destruct (Hent _ _ Hin) as [_ [s [Hs Hk]]].
    destruct (Hv s Hs) as [Hd Hy].
    destruct (period_end_total period _ k Hp Hd Hy Hk) as [pe Hpe].
    apply (to_response_total _ _ _ _ Hpe). }
  rewrite Hg. cbn [bind]. rewrite Hres0. cbn [bind].
  apply mapM_Forall2 in Hres0.
  pose proof (sorted_perm by_start_date res0) as Hperm.
  exists (sorted by_start_date res0). split; [reflexivity|].
  split; [|split; [|split]].
  - rewrite (zsum_perm _ _ (Permutation_map _ Hperm)).
    rewrite (responses_total_sales _ _ _ Hres0). exact Hsum.
  - apply (Permutation_NoDup (Permutation_sym (Permutation_map _ Hperm))).
    rewrite (responses_start_date _ _ _ Hres0).
    apply NoDup_map_combine_min. exact Hkeys.
  - intros s Hs. destruct (Hcov s Hs) as [k [Hk Hin]].
    apply in_map_iff in Hin. destruct Hin as [[k' d] [Hfst Hin]]. simpl in Hfst. subst k'.
    destruct (Forall2_In_l _ _ _ _ Hres0 Hin) as [b [Hb Hr]].
    exists k, b. split; [exact Hk|]. split.
    + apply (Permutation_in _ (Permutation_sym Hperm)). exact Hb.
    + apply (to_response_fields _ _ _ _ Hr).
  - intros b Hb. apply (Permutation_in _ Hperm) in Hb.
    destruct (Forall2_In_r _ _ _ _ Hres0 Hb) as [[k d] [Hin Hr]].
    destruct (to_response_fields _ _ _ _ Hr) as (Hsd & Htr & Hts & _).
    destruct (Hent _ _ Hin) as [Hd _].
    exists k. rewrite Hsd, Htr, Hts, Hd. simpl. auto.
Qed.

(** C1 as amended, on the January store, daily: four units in all. *)
Lemma revenue_conservation_witness :
  (daily <> monthly
   /\ store_wf january_db
   /\ (forall s, In s (sales_matching january_start january_end None None january_db) ->
         datetime_valid (Sale.sale_date s)
         /\ year (dt_date (Sale.sale_date s)) < MAXYEAR))
  /\ exists res,
       get_revenue_analysis daily (Some january_start) (Some january_end) None None
                            some_utcnow january_db = Ok res
       /\ zsum (map RevenueAnalysis.total_sales res) = 4.
Proof.
  assert (H1 : daily <> monthly) by discriminate.
  assert (H2 : forall s,
             In s (sales_matching january_start january_end None None january_db) ->
             datetime_valid (Sale.sale_date s)
             /\ year (dt_date (Sale.sale_date s)) < MAXYEAR).
  { intros s Hs. vm_compute in Hs.
    repeat (destruct Hs as [<- | Hs]; [vm_compute; repeat split; reflexivity|]).
    destruct Hs. }
  split; [exact (conj H1 (conj store_wf_january H2))|].
  destruct (revenue_conservation daily january_start january_end None None
              some_utcnow january_db H1 store_wf_january H2) as (res & Hres & Hsum & _).
  exists res. split; [exact Hres|]. rewrite Hsum. vm_compute. reflexivity.
Defined.

(** C1 as stated fails: on the January store the daily buckets hold 0.2 and
    1.5, which sum to 1.7, while the four matching sales sum to
    1.7000000000000002, in query order and in every other order. *)
Lemma revenue_sum_rounding_counterexample :
  exists res,
    get_revenue_analysis daily (Some january_start) (Some january_end) None None
                         some_utcnow january_db = Ok res
    /\ fsum (map RevenueAnalysis.total_revenue res) = 1.7%float
    /\ fsum (map Sale.total_amount
               (sales_matching january_start january_end None None january_db))
       = 1.7000000000000002%float
    /\ Forall (fun amounts => fsum amounts <> fsum (map RevenueAnalysis.total_revenue res))
         (permutations
            (map Sale.total_amount
               (sales_matching january_start january_end None None january_db))).
Proof.
  eexists. split; [vm_compute; reflexivity|].
  split; [vm_compute; reflexivity|]. split; [vm_compute; reflexivity|].
  vm_compute. repeat constructor; discriminate.
Qed.

(** C2.  A monthly aggregation never returns a bucket: the end of a monthly
    bucket is computed by [replace(hour=23, minute=59, second=59)] on a
    [date], which raises, so the handler returns the empty list (no sale
    selected) or raises; on the January store it raises TypeError where the
    claim has one bucket ending 2024-01-31 23:59:59. *)
Theorem monthly_aggregation_raises :
  (forall start_date end_date category_id platform utcnow db,
     match get_revenue_analysis monthly start_date end_date category_id platform
                                utcnow db with
     | Ok res => res = []
     | Raise _ => True
     end)
  /\ get_revenue_analysis monthly (Some january_start) (Some january_end)
                          None None some_utcnow january_db
     = Raise TypeError.
Proof.
  split; [|vm_compute; reflexivity].
  intros sd ed c pl now db. unfold get_revenue_analysis.
  destruct (match sd with Some s => Ok s | None => _ end) as [sd'|e]; simpl; [|exact I].
  destruct (group_sales monthly _ []) as [g|e]; simpl; [|exact I].
  destruct (mapM (to_response monthly) g) as [res|e] eqn:Hm; simpl; [|exact I].
  apply mapM_monthly in Hm. subst res. reflexivity.
Qed.

(** C3.  An annual bucket that starts on January 1st of a year ends, as
    computed, on January 1st of the next year at midnight: the second is
    subtracted from a [date], which ignores it.  This holds for every bucket of
    every annual aggregation that returns, and on the January store the one
    bucket ends 2025-01-01 00:00:00, not 2024-12-31 23:59:59. *)
Theorem annual_end_is_next_new_year :
  (forall start_date end_date category_id platform utcnow db,
     match get_revenue_analysis annual start_date end_date category_id platform
                                utcnow db with
     | Ok res =>
         Forall (fun b =>
           RevenueAnalysis.end_date b
           = combine_min
               (mkdate (year (dt_date (RevenueAnalysis.start_date b)) + 1) 1 1)) res
     | Raise _ => True
     end)
  /\ (forall key,
        match period_end annual key with
        | Ok pe => pe = PDate (mkdate (year key + 1) (month key) (day key))
        | Raise _ => True
        end)
  /\ exists b,
       get_revenue_analysis annual (Some january_start) (Some january_end)
                            None None some_utcnow january_db = Ok [b]
       /\ RevenueAnalysis.start_date b = combine_min (mkdate 2024 1 1)
       /\ RevenueAnalysis.end_date b = combine_min (mkdate 2025 1 1)
       /\ RevenueAnalysis.end_date b <> mkdatetime (mkdate 2024 12 31) 23 59 59 0.
Proof.
  split; [|split].
  2: { intros key. destruct (period_end annual key) as [pe|e] eqn:Hpe; [|exact I].
       apply period_end_annual. exact Hpe. }
  - intros sd ed c pl now db. unfold get_revenue_analysis.
    destruct (match sd with Some s => Ok s | None => _ end) as [sd'|e]; simpl; [|exact I].
    destruct (group_sales annual _ []) as [g|e] eqn:Hg; simpl; [|exact I].
    destruct (mapM (to_response annual) g) as [res|e] eqn:Hm; simpl; [|exact I].
    pose proof (group_sales_inv annual _ [] [] g (grouped_inv_nil annual) Hg)
      as (_ & Hent & _).
    apply mapM_Forall2 in Hm.
    apply Forall_forall. intros b Hb.
    apply (Permutation_in _ (sorted_perm by_start_date res)) in Hb.
    destruct (Forall2_In_r _ _ _ _ Hm Hb) as [[k d] [Hin Hr]].
    destruct (to_response_fields _ _ _ _ Hr) as (Hsd & _ & _ & pe & Hpe & Hed).
    destruct (Hent _ _ Hin) as [_ [s [_ Hk]]].
    apply bucket_key_annual_inv in Hk. apply period_end_annual in Hpe.
    rewrite Hed, Hsd, Hpe, Hk. reflexivity.
  - eexists. split; [vm_compute; reflexivity|]. simpl.
    repeat split. discriminate.
Qed.

(** C4.  For sales with valid dates the grouping loop returns, and the key
    of every sale is a key of the grouped dict (the start of its bucket in the
    response): the sale's date (daily); a Monday, namely the sale's date minus
    its weekday offset in days (weekly); day 1 of the sale's month (monthly);
    January 1st of the sale's year (annual). *)
Theorem bucket_key_of_sale (period : PeriodType) (sales : list Sale.t) :
  Forall (fun s => datetime_valid (Sale.sale_date s)) sales ->
  exists grouped_sales,
    group_sales period sales [] = Ok grouped_sales
    /\ forall sale, In sale sales ->
         let d := dt_date (Sale.sale_date sale) in
         exists key,
           bucket_key period (Sale.sale_date sale) = Ok key
           /\ has_key grouped_sales key = true
           /\ (forall data r, to_response period (key, data) = Ok r ->
                 RevenueAnalysis.start_date r = combine_min key)
           /\ match period with
              | daily => key = d
              | weekly => date_valid key /\ weekday key = 0
                          /\ toordinal key = toordinal d - weekday d
                          /\ 0 <= weekday d <= 6
              | monthly => key = mkdate (year d) (month d) 1
              | annual => key = mkdate (year d) 1 1
              end.
Proof.
  intros Hv. rewrite Forall_forall in Hv.
  destruct (group_sales_total period sales []) as [g Hg].
  { intros s Hs. destruct (bucket_key_valid period _ (Hv s Hs)) as [k [Hk _]]. eauto. }
  exists g. split; [exact Hg|].
  pose proof (group_sales_inv period sales [] [] g (grouped_inv_nil period) Hg)
    as (_ & _ & Hcov & _).
  simpl in Hcov. intros sale Hs d.
  destruct (Hcov sale Hs) as [key [Hk Hin]].
  exists key. split; [exact Hk|]. split; [apply has_key_In; exact Hin|]. split.
  - intros data r Hr. apply (to_response_fields _ _ _ _ Hr).
  - specialize (Hv sale Hs). destruct period.
    + simpl in Hk. injection Hk as <-. reflexivity.
    + destruct (bucket_key_weekly _ Hv) as [key' (Hk' & Hkv & Hw & Ho)].
      assert (key' = key) by congruence. subst key'.
      pose proof (weekday_range d). auto.
    + rewrite bucket_key_monthly in Hk by exact Hv. injection Hk as <-. reflexivity.
    + rewrite bucket_key_annual in Hk by exact Hv. injection Hk as <-. reflexivity.
Qed.

(** C4 on the sales of the January store, weekly. *)
Lemma bucket_key_of_sale_witness :
  Forall (fun s => datetime_valid (Sale.sale_date s)) (sales january_db)
  /\ exists grouped_sales,
       group_sales weekly (sales january_db) [] = Ok grouped_sales
       /\ forall sale, In sale (sales january_db) ->
            exists key, bucket_key weekly (Sale.sale_date sale) = Ok key
                        /\ has_key grouped_sales key = true /\ weekday key = 0.
Proof.
  assert (H : Forall (fun s => datetime_valid (Sale.sale_date s)) (sales january_db)).
  { apply Forall_forall. intros s Hs. vm_compute in Hs.
    repeat (destruct Hs as [<- | Hs]; [vm_compute; split; reflexivity|]).
    destruct Hs. }
  split; [exact H|].
  destruct (bucket_key_of_sale weekly (sales january_db) H) as (g & Hg & Hkeys).
  exists g. split; [exact Hg|]. intros sale Hs.
  destruct (Hkeys sale Hs) as (key & Hk & Hhas & _ & _ & Hw & _).
  exists key. auto.
Defined.



(** C6, as amended.  From a store with no negative Inventory quantity,
    [create_sale] never leaves one; [update_inventory] and [create_product]
    store the quantity they are given, and leave none when that quantity
    ([quantity], [initial_stock]) is not negative. *)
Theorem inventory_nonneg_preserved (db : DB) :
  inventory_nonneg db ->
  (forall sale, inventory_nonneg (snd (create_sale sale db)))
  /\ (forall product_id u,
        0 <= InventoryUpdate.quantity u ->
        inventory_nonneg (snd (update_inventory product_id u db)))
  /\ (forall product,
        match ProductCreate.initial_stock product with
        | Some q => 0 <= q
        | None => True
        end ->
        inventory_nonneg (snd (create_product product db))).
Proof.
  intros Hdb. split; [|split].
  - intros sale. unfold create_sale.
    destruct (find _ (products db)) as [p|]; [|exact Hdb].
    unfold insert_sale. destruct (negb _); [exact Hdb|]. simpl.
    destruct (find _ (inventory db)) as [inv|]; simpl.
    + apply update_row_nonneg; [exact Hdb|]. simpl. rewrite clamp_max. lia.
    + exact Hdb.
  - intros pid u Hq. unfold update_inventory.
    destruct (find _ (inventory db)) as [inv|]; [|exact Hdb]. simpl.
    apply update_row_nonneg; [exact Hdb|].
    destruct (InventoryUpdate.low_stock_threshold u); simpl; exact Hq.
  - intros product Hq. unfold create_product.
    destruct (find _ (categories db)); [|exact Hdb].
    destruct (find _ (products db)); [exact Hdb|].
    unfold insert_product. destruct (_ || _); [exact Hdb|].
    unfold insert_inventory. simpl. destruct (_ || _); [exact Hdb|]. simpl.
    unfold inventory_nonneg. simpl. apply Forall_app. split; [exact Hdb|].
    constructor; [|constructor]. simpl.
    destruct (ProductCreate.initial_stock product); lia.
Qed.

(** C6 as amended, on the example store. *)
Lemma inventory_nonneg_preserved_witness :
  inventory_nonneg example_db
  /\ inventory_nonneg (snd (create_sale oversell example_db))
  /\ inventory_nonneg (snd (update_inventory 1 (InventoryUpdate.mk 0 (Some 3)) example_db))
  /\ inventory_nonneg (snd (create_product (same_sku 1) example_db)).
Proof.
  assert (H : inventory_nonneg example_db).
  { unfold inventory_nonneg. simpl. repeat constructor. simpl. lia. }
  split; [exact H|].
  destruct (inventory_nonneg_preserved example_db H) as (Hs & Hu & Hp).
  split; [apply Hs|]. split; [apply Hu; simpl; lia | apply Hp; simpl; lia].
Defined.

(** C6 as stated fails: [update_inventory] with quantity -5 and
    [create_product] with [initial_stock] -3 leave a negative quantity in a
    store that had none. *)
Lemma inventory_negative_counterexample :
  inventory_nonneg example_db
  /\ (exists r db',
        update_inventory 1 (InventoryUpdate.mk (-5) None) example_db = (Ok r, db')
        /\ inventory db' = [Inventory.mk 1 1 (-5) 10]
        /\ ~ inventory_nonneg db')
  /\ (exists p db',
        create_product
          (ProductCreate.mk "Case" None 4.5%float "C-1" 1 "Walmart" (Some (-3)) None)
          example_db = (Ok p, db')
        /\ inventory db' = [Inventory.mk 1 1 5 10; Inventory.mk 2 2 (-3) 10]
        /\ ~ inventory_nonneg db').
Proof.
  split; [|split].
  - unfold inventory_nonneg. simpl. repeat constructor. simpl. lia.
  - eexists _, _. split; [reflexivity|]. split; [reflexivity|].
    unfold inventory_nonneg. simpl. intros H. inversion H as [|? ? Hq _]. simpl in Hq. lia.
  - eexists _, _. split; [reflexivity|]. split; [reflexivity|].
    unfold inventory_nonneg. simpl. intros H. inversion H as [|? ? _ H']; subst.
    inversion H' as [|? ? Hq _]. simpl in Hq. lia.
Qed.

(** C7.  [create_category] with the name of an existing category does not
    raise an HTTPException: the commit's IntegrityError leaves the handler
    unhandled, and the store is unchanged. *)
Theorem create_category_duplicate_name (category : CategoryCreate.t) (db : DB)
    (existing : Category.t) :
  In existing (categories db) ->
  Category.name existing = CategoryCreate.name category ->
  create_category category db = (Raise IntegrityError, db).
Proof.
  intros Hin Hname. unfold create_category, insert_category.
  replace (existsb _ (categories db)) with true; [reflexivity|].
  symmetry. apply existsb_exists. exists existing. split; [exact Hin|].
  apply String.eqb_eq. exact Hname.
Qed.

(** C7 on a second "Electronics". *)
Lemma create_category_duplicate_name_witness :
  (In (Category.mk 1 "Electronics" None) (categories example_db)
   /\ Category.name (Category.mk 1 "Electronics" None)
      = CategoryCreate.name (CategoryCreate.mk "Electronics" (Some "again")))
  /\ create_category (CategoryCreate.mk "Electronics" (Some "again")) example_db
     = (Raise IntegrityError, example_db).
Proof.
  assert (Hin : In (Category.mk 1 "Electronics" None) (categories example_db))
    by (simpl; auto).
  split; [split; [exact Hin | reflexivity]|].
  exact (create_category_duplicate_name
           (CategoryCreate.mk "Electronics" (Some "again")) example_db
           (Category.mk 1 "Electronics" None) Hin eq_refl).
Defined.

(** C8, as amended.  [create_product] with the SKU of an existing product
    leaves the store unchanged and fails: with 400 "SKU already exists" when
    its [category_id] resolves, with 404 "Category not found" when it does
    not (the category is looked up first). *)
Theorem create_product_duplicate_sku (product : ProductCreate.t) (db : DB)
    (existing : Product.t) :
  product_by_sku db (ProductCreate.sku product) = Some existing ->
  create_product product db =
    (Raise (match category_by_id db (ProductCreate.category_id product) with
            | Some _ => HTTPException 400 "SKU already exists"
            | None => HTTPException 404 "Category not found"
            end), db).
Proof.
  unfold product_by_sku, category_by_id, create_product. intros Hsku.
  destruct (find _ (categories db)); [|reflexivity].
  rewrite Hsku. reflexivity.
Qed.

(** C8 as amended, on a second product with SKU X-1 in category 1. *)
Lemma create_product_duplicate_sku_witness :
  product_by_sku example_db (ProductCreate.sku (same_sku 1))
  = Some (Product.mk 1 "Phone" None 9.5%float "X-1" 1 "Amazon" true)
  /\ create_product (same_sku 1) example_db
     = (Raise (HTTPException 400 "SKU already exists"), example_db).
Proof.
  assert (H : product_by_sku example_db (ProductCreate.sku (same_sku 1))
              = Some (Product.mk 1 "Phone" None 9.5%float "X-1" 1 "Amazon" true))
    by reflexivity.
  split; [exact H|].
  exact (create_product_duplicate_sku (same_sku 1) example_db _ H).
Defined.

(** C8 as stated fails: a second product with SKU X-1 whose category does
    not exist is refused with 404 'Category not found', not with a conflict. *)
Lemma duplicate_sku_not_found_counterexample :
  product_by_sku example_db (ProductCreate.sku (same_sku 2))
  = Some (Product.mk 1 "Phone" None 9.5%float "X-1" 1 "Amazon" true)
  /\ create_product (same_sku 2) example_db
     = (Raise (HTTPException 404 "Category not found"), example_db).
Proof. split; reflexivity. Qed.



(** C10.  A [category_id] or [product_id] of 0 is no filter:
    [get_products] and [get_sales] answer as if it were absent, and
    [get_products] with [category_id=0] alone returns every product. *)
Theorem zero_filter_is_no_filter :
  (forall platform is_active db,
     get_products (Some 0) platform is_active db
     = get_products None platform is_active db)
  /\ (forall db, get_products (Some 0) None None db = products db)
  /\ (forall start_date end_date category_id platform limit offset db,
        get_sales start_date end_date (Some 0) category_id platform limit offset db
        = get_sales start_date end_date None category_id platform limit offset db)
  /\ (forall start_date end_date product_id platform limit offset db,
        get_sales start_date end_date product_id (Some 0) platform limit offset db
        = get_sales start_date end_date product_id None platform limit offset db).
Proof. repeat split. Qed.

(** ** Further properties of the handlers *)

Lemma find_by_key {A} (key : A -> Z) k l :
  find (fun x => key x =? k) l <> None <-> In k (map key l).
Proof.
  induction l as [|x l IH]; simpl; [split; [congruence | tauto]|].
  destruct (key x =? k) eqn:E.
  - apply Z.eqb_eq in E. split; [auto | congruence].
  - apply Z.eqb_neq in E. rewrite IH. tauto.
Qed.

Lemma find_by_key_none {A} (key : A -> Z) k l :
  find (fun x => key x =? k) l = None <-> ~ In k (map key l).
Proof.
  rewrite <- find_by_key. destruct (find _ l); split; intros H; try congruence.
  exfalso. apply H. congruence.
Qed.

Lemma existsb_by_key {A} (key : A -> Z) k l :
  existsb (fun x => key x =? k) l = true <-> In k (map key l).
Proof.
  rewrite existsb_exists, in_map_iff. split.
  - intros [x [Hin He]]. apply Z.eqb_eq in He. eauto.
  - intros [x [He Hin]]. exists x. split; [exact Hin | apply Z.eqb_eq; exact He].
Qed.

Lemma existsb_by_name {A} (key : A -> string) k l :
  existsb (fun x => String.eqb (key x) k) l = true <-> In k (map key l).
Proof.
  rewrite existsb_exists, in_map_iff. split.
  - intros [x [Hin He]]. apply String.eqb_eq in He. eauto.
  - intros [x [He Hin]]. exists x. split; [exact Hin | apply String.eqb_eq; exact He].
Qed.

Lemma find_by_name_none {A} (key : A -> string) k l :
  find (fun x => String.eqb (key x) k) l = None -> ~ In k (map key l).
Proof.
  intros Hf Hin. apply in_map_iff in Hin. destruct Hin as [x [He Hin]].
  pose proof (find_none _ _ Hf x Hin) as Hx. simpl in Hx.
  apply String.eqb_neq in Hx. auto.
Qed.

Lemma NoDup_snoc {A} (l : list A) x : NoDup l -> ~ In x l -> NoDup (l ++ [x]).
Proof.
  intros Hnd Hx. apply (Permutation_NoDup (Permutation_cons_append l x)).
  constructor; assumption.
Qed.

Lemma next_id_not_in ids : ~ In (next_id ids) ids.
Proof. intros Hin. apply next_id_fresh in Hin. lia. Qed.

Lemma incl_snoc_l {A} (l : list A) x m : incl l m -> In x m -> incl (l ++ [x]) m.
Proof.
  intros Hl Hx y Hy. apply in_app_or in Hy. destruct Hy as [Hy | [<- | []]]; auto.
Qed.

Lemma incl_snoc_r {A} (l m : list A) x : incl l m -> incl l (m ++ [x]).
Proof. intros Hl y Hy. apply in_or_app. left. auto. Qed.

Lemma incl_snoc_both {A} (l m : list A) x : incl l m -> incl (l ++ [x]) (m ++ [x]).
Proof.
  intros Hl. apply incl_snoc_l; [apply incl_snoc_r; exact Hl|].
  apply in_or_app. right. simpl. auto.
Qed.

(** The rows of [update_inventory_row]: same ids, and the same products when
    the new row keeps the product of the row it replaces. *)
Lemma update_row_ids row l :
  map Inventory.id
      (map (fun i => if Inventory.id i =? Inventory.id row then row else i) l)
  = map Inventory.id l.
Proof.
  rewrite map_map. apply map_ext. intros i.
  destruct (Inventory.id i =? Inventory.id row) eqn:E; [|reflexivity].
  apply Z.eqb_eq in E. auto.
Qed.

Lemma NoDup_map_eq {A} (key : A -> Z) l x y :
  NoDup (map key l) -> In x l -> In y l -> key x = key y -> x = y.
Proof.
  induction l as [|z l IH]; simpl; [tauto|].
  intros Hnd Hx Hy He. inversion Hnd as [|? ? Hz Hnd']; subst.
  destruct Hx as [-> | Hx], Hy as [-> | Hy]; auto.
  - exfalso. apply Hz. rewrite He. apply in_map. exact Hy.
  - exfalso. apply Hz. rewrite <- He. apply in_map. exact Hx.
Qed.

Lemma update_row_products inv row l :
  NoDup (map Inventory.id l) -> In inv l ->
  Inventory.id row = Inventory.id inv ->
  Inventory.product_id row = Inventory.product_id inv ->
  map Inventory.product_id
      (map (fun i => if Inventory.id i =? Inventory.id row then row else i) l)
  = map Inventory.product_id l.
Proof.
  intros Hnd Hin Hid Hpid. rewrite map_map. apply map_ext_in. intros i Hi.
  destruct (Inventory.id i =? Inventory.id row) eqn:E; [|reflexivity].
  apply Z.eqb_eq in E. rewrite Hid in E.
  rewrite (NoDup_map_eq Inventory.id l i inv Hnd Hi Hin E). exact Hpid.
Qed.

Ltac store_fields H :=
  pose proof (pk_categories _ H) as Hpkc;
  pose proof (uq_category_name _ H) as Huqc;
  pose proof (pk_products _ H) as Hpkp;
  pose proof (uq_product_sku _ H) as Huqp;
  pose proof (fk_product_category _ H) as Hfkp;
  pose proof (pk_inventory _ H) as Hpki;
  pose proof (uq_inventory_product _ H) as Huqi;
  pose proof (fk_inventory_product _ H) as Hfki;
  pose proof (pk_sales _ H) as Hpks;
  pose proof (fk_sale_product _ H) as Hfks;
  pose proof (product_has_inventory _ H) as Hinv.

Lemma store_ok_update_row db inv row :
  store_ok db -> In inv (inventory db) ->
  Inventory.id row = Inventory.id inv ->
  Inventory.product_id row = Inventory.product_id inv ->
  store_ok (update_inventory_row db row).
Proof.
  intros Hok Hin Hid Hpid. store_fields Hok. unfold update_inventory_row.
  constructor; cbn [categories products inventory sales];
    rewrite ?update_row_ids, ?(update_row_products inv row) by assumption;
    assumption.
Qed.

Lemma store_ok_create_category category db :
  store_ok db -> store_ok (snd (create_category category db)).
Proof.
  intros Hok. unfold create_category, insert_category.
  destruct (existsb _ (categories db)) eqn:E; [exact Hok|].
  store_fields Hok. constructor; cbn [snd categories products inventory sales];
    rewrite ?map_app; cbn [map Category.id Category.name]; try assumption.
  - apply NoDup_snoc; [assumption | apply next_id_not_in].
  - apply NoDup_snoc; [assumption|]. intros Hin.
    apply existsb_by_name in Hin. congruence.
  - apply incl_snoc_r. assumption.
Qed.

Lemma store_ok_add_sale db row :
  store_ok db ->
  Sale.id row = next_id (map Sale.id (sales db)) ->
  In (Sale.product_id row) (map Product.id (products db)) ->
  store_ok (mkDB (categories db) (products db) (inventory db) (sales db ++ [row])).
Proof.
  intros Hok Hid Hfk. store_fields Hok.
  constructor; cbn [categories products inventory sales];
    rewrite ?map_app; cbn [map]; try assumption.
  - apply NoDup_snoc; [assumption|]. rewrite Hid. apply next_id_not_in.
  - apply incl_snoc_l; assumption.
Qed.

Lemma store_ok_create_sale sale db :
  store_ok db -> store_ok (snd (create_sale sale db)).
Proof.
  intros Hok. unfold create_sale.
  destruct (find _ (products db)) as [p|] eqn:Hp; [|exact Hok].
  unfold insert_sale. destruct (negb _); [exact Hok|].
  cbn [products inventory categories sales].
  assert (Hadd : store_ok (mkDB (categories db) (products db) (inventory db)
            (sales db ++ [Sale.mk (next_id (map Sale.id (sales db)))
               (SaleCreate.product_id sale) (SaleCreate.quantity sale)
               (SaleCreate.unit_price sale)
               (int_mul_float (SaleCreate.quantity sale) (SaleCreate.unit_price sale))
               (SaleCreate.sale_date sale) (SaleCreate.platform sale)
               (SaleCreate.order_id sale)]))).
  { apply store_ok_add_sale; [exact Hok | reflexivity|]. cbn [Sale.product_id].
    apply (find_by_key Product.id). congruence. }
  destruct (find _ (inventory db)) as [inv|] eqn:Hi; cbn [snd]; [|exact Hadd].
  apply (store_ok_update_row _ inv); [exact Hadd | | reflexivity | reflexivity].
  apply find_some in Hi. apply Hi.
Qed.

Lemma store_ok_update_inventory product_id u db :
  store_ok db -> store_ok (snd (update_inventory product_id u db)).
Proof.
  intros Hok. unfold update_inventory.
  destruct (find _ (inventory db)) as [inv|] eqn:Hi; [|exact Hok]. cbn [snd].
  apply (store_ok_update_row _ inv); [exact Hok | |
    destruct (InventoryUpdate.low_stock_threshold u); reflexivity |
    destruct (InventoryUpdate.low_stock_threshold u); reflexivity].
  apply find_some in Hi. apply Hi.
Qed.

(** Under the constraints the Inventory insert of [create_product] cannot
    fail: the new product id is above every product id, so no Inventory row
    refers to it. *)
Lemma create_product_inserts product db :
  store_ok db ->
  category_by_id db (ProductCreate.category_id product) <> None ->
  product_by_sku db (ProductCreate.sku product) = None ->
  let p := Product.mk (next_id (map Product.id (products db)))
             (ProductCreate.name product) (ProductCreate.description product)
             (ProductCreate.price product) (ProductCreate.sku product)
             (ProductCreate.category_id product) (ProductCreate.platform product)
             true in
  let i := Inventory.mk (next_id (map Inventory.id (inventory db))) (Product.id p)
             (match ProductCreate.initial_stock product with Some q => q | None => 0 end)
             (match ProductCreate.low_stock_threshold product with
              | Some t => t | None => 10 end) in
  create_product product db
  = (Ok p, mkDB (categories db) (products db ++ [p]) (inventory db ++ [i]) (sales db)).
Proof.
  intros Hok Hcat Hsku p i. unfold create_product.
  unfold category_by_id in Hcat. unfold product_by_sku in Hsku.
  destruct (find _ (categories db)) as [c|] eqn:Hc; [|congruence].
  rewrite Hsku. unfold insert_product.
  assert (E1 : existsb (fun p0 => String.eqb (Product.sku p0) (ProductCreate.sku product))
                 (products db) = false).
  { destruct (existsb _ (products db)) eqn:E; [|reflexivity].
    apply existsb_by_name in E. apply find_by_name_none in Hsku. tauto. }
  assert (E2 : existsb (fun c0 => Category.id c0 =? ProductCreate.category_id product)
                 (categories db) = true).
  { apply existsb_by_key. apply (find_by_key Category.id). congruence. }
  rewrite E1, E2. cbn [orb negb]. unfold insert_inventory.
  cbn [categories products inventory sales Product.id].
  match goal with
  | |- context [existsb ?f (inventory db) || negb (existsb ?g ?m)] =>
      assert (E3 : existsb f (inventory db) = false);
      [| assert (E4 : existsb g m = true); [| rewrite E3, E4; reflexivity]]
  end.
  - destruct (existsb _ (inventory db)) eqn:E; [|reflexivity].
    apply (existsb_by_key Inventory.product_id) in E.
    apply (fk_inventory_product _ Hok) in E.
    apply next_id_not_in in E. contradiction.
  - apply (existsb_by_key Product.id). rewrite map_app. apply in_or_app.
    right. simpl. auto.
Qed.

Lemma store_ok_create_product product db :
  store_ok db -> store_ok (snd (create_product product db)).
Proof.
  intros Hok.
  destruct (category_by_id db (ProductCreate.category_id product)) as [c|] eqn:Hc.
  2: { unfold create_product. unfold category_by_id in Hc. rewrite Hc. exact Hok. }
  destruct (product_by_sku db (ProductCreate.sku product)) as [q|] eqn:Hs.
  { unfold create_product. unfold category_by_id in Hc. unfold product_by_sku in Hs.
    rewrite Hc, Hs. exact Hok. }
  rewrite create_product_inserts; [|exact Hok | congruence | exact Hs].
  cbn [snd]. store_fields Hok.
  constructor; cbn [categories products inventory sales];
    rewrite ?map_app; cbn [map Product.id Product.sku Product.category_id
                               Inventory.id Inventory.product_id];
    try assumption.
  - apply NoDup_snoc; [assumption | apply next_id_not_in].
  - apply NoDup_snoc; [assumption|]. apply find_by_name_none. exact Hs.
  - apply incl_snoc_l; [assumption|]. apply (find_by_key Category.id).
    unfold category_by_id in Hc. congruence.
  - apply NoDup_snoc; [assumption | apply next_id_not_in].
  - apply NoDup_snoc; [assumption|]. intros Hin.
    apply Hfki in Hin. apply next_id_not_in in Hin. exact Hin.
  - apply incl_snoc_both. assumption.
  - apply incl_snoc_r. assumption.
  - apply incl_snoc_both. assumption.
Qed.

Lemma store_ok_handle r db : store_ok db -> store_ok (handle r db).
Proof.
  destruct r; simpl.
  - apply store_ok_create_category.
  - apply store_ok_create_product.
  - apply store_ok_update_inventory.
  - apply store_ok_create_sale.
Qed.

Lemma store_ok_empty : store_ok empty_db.
Proof. constructor; simpl; try constructor; intros x []. Qed.

Lemma store_ok_serve rs : forall db, store_ok db -> store_ok (serve rs db).
Proof.
  unfold serve. induction rs as [|r rs IH]; simpl; intros db Hok; [exact Hok|].
  apply IH. apply store_ok_handle. exact Hok.
Qed.

Lemma filter_unique_key {A} (key : A -> Z) k l :
  NoDup (map key l) -> In k (map key l) ->
  List.length (filter (fun x => key x =? k) l) = 1%nat.
Proof.
  induction l as [|x l IH]; simpl; [tauto|].
  intros Hnd Hin. inversion Hnd as [|? ? Hx Hnd']; subst.
  destruct (key x =? k) eqn:E.
  - apply Z.eqb_eq in E. simpl. f_equal.
    destruct (filter (fun x0 => key x0 =? k) l) as [|y l'] eqn:Ef; [reflexivity|].
    exfalso. assert (Hy : In y (filter (fun x0 => key x0 =? k) l)) by (rewrite Ef; simpl; auto).
    apply filter_In in Hy. destruct Hy as [Hy Hk]. apply Z.eqb_eq in Hk.
    apply Hx. rewrite E, <- Hk. apply in_map. exact Hy.
  - apply Z.eqb_neq in E. apply IH; [exact Hnd'|]. destruct Hin; [contradiction | assumption].
Qed.

Lemma find_app_none {A} (f : A -> bool) l l' :
  find f l = None -> find f (l ++ l') = find f l'.
Proof.
  induction l as [|x l IH]; simpl; [reflexivity|].
  destruct (f x); [discriminate | exact IH].
Qed.

Lemma find_map_same {A} (f : A -> bool) (g : A -> A) l :
  (forall x, In x l -> f (g x) = f x /\ (f x = true -> g x = x)) ->
  find f (map g l) = find f l.
Proof.
  induction l as [|x l IH]; simpl; intros H; [reflexivity|].
  destruct (H x (or_introl eq_refl)) as [He Hx]. rewrite He.
  destruct (f x); [rewrite Hx; reflexivity|]. apply IH. intros y Hy. apply H. auto.
Qed.

(** A row of another product is not touched by [update_inventory_row]. *)
Lemma find_update_row_other pid pid' inv row l :
  NoDup (map Inventory.id l) ->
  find (fun i => Inventory.product_id i =? pid) l = Some inv ->
  Inventory.id row = Inventory.id inv -> Inventory.product_id row = pid ->
  pid' <> pid ->
  find (fun i => Inventory.product_id i =? pid')
       (map (fun i => if Inventory.id i =? Inventory.id row then row else i) l)
  = find (fun i => Inventory.product_id i =? pid') l.
Proof.
  intros Hnd Hf Hid Hpid Hne. apply find_some in Hf. destruct Hf as [Hin Hp].
  apply Z.eqb_eq in Hp. apply find_map_same. intros i Hi.
  destruct (Inventory.id i =? Inventory.id row) eqn:E; [|tauto].
  apply Z.eqb_eq in E. rewrite Hid in E.
  rewrite (NoDup_map_eq Inventory.id l i inv Hnd Hi Hin E).
  assert (E1 : (Inventory.product_id row =? pid') = false) by (apply Z.eqb_neq; lia).
  assert (E2 : (Inventory.product_id inv =? pid') = false) by (apply Z.eqb_neq; lia).
  rewrite E1, E2. split; [reflexivity | discriminate].
Qed.

(** What [create_sale] does once the product is found. *)
Lemma create_sale_found sale db p :
  product_by_id db (SaleCreate.product_id sale) = Some p ->
  let row := Sale.mk (next_id (map Sale.id (sales db)))
               (SaleCreate.product_id sale) (SaleCreate.quantity sale)
               (SaleCreate.unit_price sale)
               (int_mul_float (SaleCreate.quantity sale) (SaleCreate.unit_price sale))
               (SaleCreate.sale_date sale) (SaleCreate.platform sale)
               (SaleCreate.order_id sale) in
  let db1 := mkDB (categories db) (products db) (inventory db) (sales db ++ [row]) in
  create_sale sale db =
  (Ok row,
   match inventory_of db (SaleCreate.product_id sale) with
   | Some inv =>
       update_inventory_row db1
         (Inventory.mk (Inventory.id inv) (Inventory.product_id inv)
            (Z.max 0 (Inventory.quantity inv - SaleCreate.quantity sale))
            (Inventory.low_stock_threshold inv))
   | None => db1
   end).
Proof.
  unfold product_by_id, inventory_of, create_sale, insert_sale. intros Hp.
  rewrite Hp, (find_existsb _ _ _ Hp). cbn [negb inventory].
  destruct (find _ (inventory db)); [rewrite clamp_max|]; reflexivity.
Qed.

Lemma store_ok_example : store_ok example_db.
Proof.
  constructor; simpl;
    solve [ constructor; [intros [] | constructor] | constructor
          | intros x Hx; exact Hx | intros x [] ].
Qed.









(** X6.  The 404 answers are given exactly when the row looked up is
    missing: the category of [create_product], the product of [get_product]
    and of [create_sale], the Inventory row of [update_inventory]. *)
Theorem not_found_exactly :
  (forall product db,
     fst (create_product product db) = Raise (HTTPException 404 "Category not found")
     <-> category_by_id db (ProductCreate.category_id product) = None)
  /\ (forall product_id db,
        get_product product_id db = Raise (HTTPException 404 "Product not found")
        <-> product_by_id db product_id = None)
  /\ (forall product_id u db,
        fst (update_inventory product_id u db)
        = Raise (HTTPException 404 "Inventory not found")
        <-> inventory_of db product_id = None)
  /\ (forall sale db,
        fst (create_sale sale db) = Raise (HTTPException 404 "Product not found")
        <-> product_by_id db (SaleCreate.product_id sale) = None).
Proof.
  split; [|split; [|split]].
  - intros product db. unfold create_product, category_by_id.
    destruct (find _ (categories db)); [|tauto].
    destruct (find _ (products db)); [split; discriminate|].
    unfold insert_product. destruct (_ || _); [split; discriminate|].
    destruct (insert_inventory _ _ _ _) as [[i db2]|e] eqn:Hi.
    + split; discriminate.
    + unfold insert_inventory in Hi. destruct (_ || _) in Hi; [|discriminate].
      injection Hi as <-. split; discriminate.
  - intros pid db. unfold get_product, product_by_id.
    destruct (find _ (products db)); [split; discriminate | tauto].
  - intros pid u db. unfold update_inventory, inventory_of.
    destruct (find _ (inventory db)); [split; discriminate | tauto].
  - intros sale db. unfold create_sale, product_by_id.
    destruct (find _ (products db)); [|tauto].
    unfold insert_sale. destruct (negb _); [split; discriminate|].
    cbn [inventory]. destruct (find _ (inventory db)); split; discriminate.
Qed.

(** What [update_inventory] does once the row is found. *)
Lemma update_inventory_found product_id u db inv :
  inventory_of db product_id = Some inv ->
  let row := Inventory.mk (Inventory.id inv) (Inventory.product_id inv)
               (InventoryUpdate.quantity u)
               (match InventoryUpdate.low_stock_threshold u with
                | Some t => t
                | None => Inventory.low_stock_threshold inv
                end) in
  update_inventory product_id u db
  = (Ok (row, is_low_stock row), update_inventory_row db row).
Proof.
  intros Hi row. unfold update_inventory. unfold inventory_of in Hi. rewrite Hi.
  unfold row. destruct (InventoryUpdate.low_stock_threshold u); reflexivity.
Qed.



(** X8.  [update_inventory] is idempotent: the same update applied a second
    time gives the same response and the same store. *)
Theorem update_inventory_idempotent (product_id : Z) (u : InventoryUpdate.t)
    (db : DB) :
  update_inventory product_id u (snd (update_inventory product_id u db))
  = update_inventory product_id u db.
Proof.
  destruct (inventory_of db product_id) as [inv|] eqn:Hi.
  - rewrite (update_inventory_found product_id u db inv Hi). cbn [snd].
    set (row := Inventory.mk (Inventory.id inv) (Inventory.product_id inv)
                  (InventoryUpdate.quantity u)
                  (match InventoryUpdate.low_stock_threshold u with
                   | Some t => t
                   | None => Inventory.low_stock_threshold inv
                   end)).
    assert (Hi1 : inventory_of (update_inventory_row db row) product_id = Some row).
    { unfold inventory_of, update_inventory_row. cbn [inventory].
      apply (find_update_row product_id inv row); [exact Hi|].
      unfold inventory_of in Hi. apply find_some in Hi. apply Z.eqb_eq. apply Hi. }
    rewrite (update_inventory_found product_id u _ row Hi1).
    assert (Hrow : Inventory.mk (Inventory.id row) (Inventory.product_id row)
                     (InventoryUpdate.quantity u)
                     (match InventoryUpdate.low_stock_threshold u with
                      | Some t => t
                      | None => Inventory.low_stock_threshold row
                      end) = row).
    { unfold row. cbn [Inventory.id Inventory.product_id Inventory.low_stock_threshold].
      destruct (InventoryUpdate.low_stock_threshold u); reflexivity. }
    rewrite Hrow. f_equal.
    unfold update_inventory_row. cbn [categories products inventory sales]. f_equal.
    rewrite map_map. apply map_ext. intros i.
    destruct (Inventory.id i =? Inventory.id row) eqn:E; [|rewrite E; reflexivity].
    rewrite Z.eqb_refl. reflexivity.
  - unfold update_inventory. unfold inventory_of in Hi. rewrite Hi. cbn [snd].
    rewrite Hi. reflexivity.
Qed.






(** *** The order of datetimes *)

Lemma cmp_fields_antisym a : forall b, cmp_fields b a = CompOpp (cmp_fields a b).
Proof.
  induction a as [|x a IH]; intros [|y b]; simpl; try reflexivity.
  rewrite (Z.compare_antisym x y). destruct (x ?= y); simpl; auto.
Qed.

Lemma datetime_leb_total a b : datetime_leb a b = false -> datetime_leb b a = true.
Proof.
  unfold datetime_leb, datetime_cmp.
  rewrite (cmp_fields_antisym (datetime_fields a) (datetime_fields b)).
  destruct (cmp_fields (datetime_fields a) (datetime_fields b)); simpl; congruence.
Qed.

Lemma cmp_fields_trans a : forall b c,
  cmp_fields a b <> Gt -> cmp_fields b c <> Gt -> cmp_fields a c <> Gt.
Proof.
  induction a as [|x a IH]; intros [|y b] [|z c]; simpl; try congruence.
  destruct (x ?= y) eqn:Exy; try congruence.
  - apply Z.compare_eq in Exy. subst y. destruct (x ?= z); try congruence. apply IH.
  - intros _. destruct (y ?= z) eqn:Eyz; try congruence.
    + apply Z.compare_eq in Eyz. subst z. rewrite Exy. congruence.
    + intros _. rewrite Z.compare_lt_iff in Exy, Eyz.
      assert (Hxz : x < z) by lia. apply Z.compare_lt_iff in Hxz. rewrite Hxz. congruence.
Qed.

Lemma datetime_leb_trans a b c :
  datetime_leb a b = true -> datetime_leb b c = true -> datetime_leb a c = true.
Proof.
  unfold datetime_leb, datetime_cmp. intros Hab Hbc.
  pose proof (cmp_fields_trans (datetime_fields a) (datetime_fields b) (datetime_fields c)) as H.
  destruct (cmp_fields (datetime_fields a) (datetime_fields b)); try discriminate;
  destruct (cmp_fields (datetime_fields b) (datetime_fields c)); try discriminate;
  destruct (cmp_fields (datetime_fields a) (datetime_fields c)); try reflexivity;
  exfalso; apply H; congruence.
Qed.

Lemma datetime_ltb_not_leb a b : datetime_ltb a b = true -> datetime_leb b a = false.
Proof.
  unfold datetime_ltb, datetime_leb, datetime_cmp.
  rewrite (cmp_fields_antisym (datetime_fields a) (datetime_fields b)).
  destruct (cmp_fields (datetime_fields a) (datetime_fields b)); simpl; congruence.
Qed.

(** *** [sorted] sorts *)

Section Sorting.

Variable A : Type.
Variable leb : A -> A -> bool.
Hypothesis leb_total : forall x y, leb x y = false -> leb y x = true.

Let R (x y : A) : Prop := leb x y = true.

Lemma insert_sorted_HdRel x y l :
  R y x -> HdRel R y l -> HdRel R y (insert_sorted leb x l).
Proof.
  intros Hyx Hl. destruct l as [|z l]; simpl; [constructor; exact Hyx|].
  destruct (leb x z); constructor; [exact Hyx|]. inversion Hl; assumption.
Qed.

Lemma insert_sorted_Sorted x l : Sorted R l -> Sorted R (insert_sorted leb x l).
Proof.
  induction 1 as [|y l Hs IH Hhd]; simpl; [repeat constructor|].
  destruct (leb x y) eqn:E.
  - constructor; [constructor; assumption | constructor; exact E].
  - constructor; [exact IH|]. apply insert_sorted_HdRel; [|exact Hhd].
    apply leb_total. exact E.
Qed.

Lemma sorted_Sorted l : Sorted R (sorted leb l).
Proof.
  unfold sorted. induction l as [|x l IH]; simpl; [constructor|].
  apply insert_sorted_Sorted. exact IH.
Qed.

End Sorting.

Lemma sorted_length {A} (leb : A -> A -> bool) l :
  List.length (sorted leb l) = List.length l.
Proof. apply Permutation_length. apply sorted_perm. Qed.

Lemma Sorted_tail {A} (R : A -> A -> Prop) x l : Sorted R (x :: l) -> Sorted R l.
Proof. intros H. inversion H; assumption. Qed.

Lemma Sorted_skipn {A} (R : A -> A -> Prop) n : forall l,
  Sorted R l -> Sorted R (skipn n l).
Proof.
  induction n as [|n IH]; intros [|x l] H; simpl; try assumption.
  apply IH. apply (Sorted_tail R x). exact H.
Qed.

Lemma Sorted_firstn {A} (R : A -> A -> Prop) n : forall l,
  Sorted R l -> Sorted R (firstn n l).
Proof.
  induction n as [|n IH]; intros [|x l] H; simpl; try constructor.
  - apply IH. apply (Sorted_tail R x). exact H.
  - inversion H as [|? ? _ Hhd]; subst.
    destruct n; simpl; [constructor|].
    destruct l as [|y l]; [constructor|]. constructor. inversion Hhd; assumption.
Qed.

Lemma Sorted_map {A B} (f : A -> B) (R : B -> B -> Prop) l :
  Sorted (fun x y => R (f x) (f y)) l -> Sorted R (map f l).
Proof.
  induction 1 as [|x l Hs IH Hhd]; simpl; constructor; [exact IH|].
  destruct Hhd; simpl; constructor. assumption.
Qed.

Lemma In_firstn {A} n (l : list A) x : In x (firstn n l) -> In x l.
Proof.
  intros H. rewrite <- (firstn_skipn n l). apply in_or_app. auto.
Qed.

Lemma In_skipn {A} n (l : list A) x : In x (skipn n l) -> In x l.
Proof.
  intros H. rewrite <- (firstn_skipn n l). apply in_or_app. auto.
Qed.

(** *** The joins *)

Lemma In_join_sales s p db :
  In (s, p) (join_sales_products db)
  <-> In s (sales db) /\ In p (products db) /\ Product.id p = Sale.product_id s.
Proof.
  unfold join_sales_products. rewrite in_flat_map. split.
  - intros [s0 [Hs Hin]]. apply in_map_iff in Hin. destruct Hin as [p0 [He Hp]].
    injection He as -> ->. apply filter_In in Hp. destruct Hp as [Hp Hid].
    apply Z.eqb_eq in Hid. auto.
  - intros (Hs & Hp & Hid). exists s. split; [exact Hs|].
    apply in_map. apply filter_In. split; [exact Hp | apply Z.eqb_eq; exact Hid].
Qed.

Lemma filter_option {A B} (o : option B) (f : B -> A -> bool) (l : list A) :
  match o with Some x => filter (f x) l | None => l end
  = filter (fun r => match o with Some x => f x r | None => true end) l.
Proof.
  destruct o; [reflexivity|]. induction l; simpl; congruence.
Qed.

Lemma get_sales_page_eq sd ed pid c pl limit offset db :
  0 <= limit <= 1000 -> 0 <= offset ->
  get_sales sd ed pid c pl limit offset db
  = Ok (map fst (firstn (Z.to_nat limit) (skipn (Z.to_nat offset)
          (sorted sale_date_desc
             (filter (sale_listed sd ed pid c pl) (join_sales_products db)))))).
Proof.
  intros Hl Ho. unfold get_sales.
  replace (limit >? 1000) with false by (symmetry; rewrite Z.gtb_ltb; apply Z.ltb_ge; lia).
  replace (offset <? 0) with false by (symmetry; apply Z.ltb_ge; lia).
  replace (limit <? 0) with false by (symmetry; apply Z.ltb_ge; lia).
  cbn [orb]. cbv zeta.
  rewrite (filter_option sd (fun x r => datetime_leb x (Sale.sale_date (fst r)))).
  rewrite (filter_option ed (fun x r => datetime_leb (Sale.sale_date (fst r)) x)).
  rewrite (filter_option (truthy_int pid) (fun x r => Sale.product_id (fst r) =? x)).
  rewrite (filter_option (truthy_int c) (fun x r => Product.category_id (snd r) =? x)).
  rewrite (filter_option (truthy_str pl)
             (fun x r => String.eqb (Sale.platform (fst r)) x)).
  rewrite !filter_filter. do 5 f_equal. apply filter_ext. intros r.
  unfold sale_listed. rewrite !andb_assoc. reflexivity.
Qed.

(** X12.  With [0 <= limit <= 1000] and [0 <= offset], [get_sales] answers a
    page of [min limit (matching - offset)] sales, newest first, each one a
    sale of the store joined to its product and passing every filter given;
    with offset 0 and room for all, the page holds all matching rows.  A
    limit above 1000 or a negative offset is refused as a validation
    error. *)
Theorem get_sales_page (start_date end_date : option datetime)
    (product_id category_id : option Z) (platform : option string)
    (limit offset : Z) (db : DB) :
  let rows := filter (sale_listed start_date end_date product_id category_id platform)
                     (join_sales_products db) in
  (0 <= limit <= 1000 -> 0 <= offset ->
   exists l,
     get_sales start_date end_date product_id category_id platform limit offset db
     = Ok l
     /\ List.length l
        = Nat.min (Z.to_nat limit) (List.length rows - Z.to_nat offset)
     /\ Sorted newest_first l
     /\ Forall (fun s =>
          exists p, In s (sales db) /\ In p (products db)
                    /\ Product.id p = Sale.product_id s
                    /\ sale_listed start_date end_date product_id category_id
                                   platform (s, p) = true) l
     /\ (offset = 0 -> (List.length rows <= Z.to_nat limit)%nat ->
         Permutation l (map fst rows)))
  /\ (limit > 1000 \/ offset < 0 ->
      get_sales start_date end_date product_id category_id platform limit offset db
      = Raise RequestValidationError).
Proof.
  intros rows. split.
  - intros Hl Ho. rewrite get_sales_page_eq by lia. fold rows.
    eexists. split; [reflexivity|]. split; [|split; [|split]].
    + rewrite length_map, length_firstn, length_skipn, sorted_length. reflexivity.
    + apply Sorted_map. apply Sorted_firstn. apply Sorted_skipn.
      apply (sorted_Sorted _ sale_date_desc). intros x y. unfold sale_date_desc.
      apply datetime_leb_total.
    + apply Forall_forall. intros s Hs. apply in_map_iff in Hs.
      destruct Hs as [[s0 p] [He Hin]]. simpl in He. subst s0.
      apply In_firstn, In_skipn in Hin.
      apply (Permutation_in _ (sorted_perm sale_date_desc rows)) in Hin.
      apply filter_In in Hin. destruct Hin as [Hj Hf].
      apply In_join_sales in Hj. exists p. tauto.
    + intros -> Hlen. change (Z.to_nat 0) with 0%nat. cbn [skipn].
      rewrite firstn_all2 by (rewrite sorted_length; exact Hlen).
      apply Permutation_map. apply sorted_perm.
  - intros H. unfold get_sales.
    replace ((limit >? 1000) || (offset <? 0)) with true; [reflexivity|].
    symmetry. apply orb_true_iff. rewrite Z.gtb_ltb, !Z.ltb_lt. lia.
Qed.

(** X12 on the January store: the second and third newest of four sales. *)
Lemma get_sales_page_witness :
  (0 <= 2 <= 1000 /\ 0 <= 1)
  /\ exists l,
       get_sales None None None None None 2 1 january_db = Ok l
       /\ map Sale.id l = [3; 2].
Proof.
  assert (H1 : 0 <= 2 <= 1000) by lia.
  assert (H2 : 0 <= 1) by lia.
  split; [exact (conj H1 H2)|].
  destruct (proj1 (get_sales_page None None None None None 2 1 january_db) H1 H2)
    as (l & Hl & _).
  exists l. split; [exact Hl|].
  vm_compute in Hl. injection Hl as <-. reflexivity.
Defined.

(** X13.  [get_products] returns the products that pass every filter
    given, and only those; [is_active=False] is a filter, while a
    [category_id] of 0 or an empty platform is none. *)
Theorem get_products_filters (category_id : option Z) (platform : option string)
    (is_active : option bool) (db : DB) (p : Product.t) :
  In p (get_products category_id platform is_active db)
  <-> In p (products db)
      /\ (forall k, truthy_int category_id = Some k -> Product.category_id p = k)
      /\ (forall s, truthy_str platform = Some s -> Product.platform p = s)
      /\ (forall b, is_active = Some b -> Product.is_active p = b).
Proof.
  unfold get_products. cbv zeta.
  rewrite (filter_option is_active (fun x q => Bool.eqb (Product.is_active q) x)).
  rewrite (filter_option (truthy_str platform)
             (fun x q => String.eqb (Product.platform q) x)).
  rewrite (filter_option (truthy_int category_id)
             (fun x q => Product.category_id q =? x)).
  rewrite !filter_In.
  destruct (truthy_int category_id) as [k|], (truthy_str platform) as [s|],
           is_active as [b|];
    rewrite ?Z.eqb_eq, ?String.eqb_eq, ?Bool.eqb_true_iff;
    split; intros H; repeat split; try tauto;
    try (intros x Hx; first [injection Hx as <- | discriminate Hx]; tauto);
    try (destruct H as (_ & Hk & Hs & Hb);
         first [apply Hk | apply Hs | apply Hb]; reflexivity).
Qed.

Lemma filter_map_flag {A} (f : A -> bool) (l : list A) :
  filter snd (map (fun x => (x, f x)) l) = map (fun x => (x, f x)) (filter f l).
Proof.
  induction l as [|x l IH]; simpl; [reflexivity|].
  destruct (f x) eqn:E; simpl; rewrite IH, ?E; reflexivity.
Qed.

Lemma join_inventory_rows db i :
  In i (map fst (join_inventory_products db)) -> In i (inventory db).
Proof.
  intros H. apply in_map_iff in H. destruct H as [[i0 p] [He Hin]]. simpl in He. subst i0.
  unfold join_inventory_products in Hin. apply in_flat_map in Hin.
  destruct Hin as [j [Hj Hin]]. apply in_map_iff in Hin.
  destruct Hin as [q [He _]]. injection He as -> _. exact Hj.
Qed.

(** X14.  Every row of [get_inventory] is an Inventory row flagged
    [is_low_stock] exactly when [quantity <= low_stock_threshold]; with
    [low_stock_only] the rows answered are the flagged rows of the full
    listing. *)
Theorem get_inventory_flags (low_stock_only : bool) (db : DB) :
  Forall (fun r =>
            In (fst r) (inventory db)
            /\ snd r = (Inventory.quantity (fst r)
                        <=? Inventory.low_stock_threshold (fst r))
            /\ (low_stock_only = true -> snd r = true))
         (get_inventory low_stock_only db)
  /\ get_inventory true db = filter snd (get_inventory false db).
Proof.
  split.
  - apply Forall_forall. intros [i flag] Hin. unfold get_inventory in Hin.
    apply in_map_iff in Hin. destruct Hin as [j [He Hj]]. injection He as -> <-.
    cbn [fst snd]. destruct low_stock_only.
    + apply filter_In in Hj. destruct Hj as [Hj Hlow].
      split; [apply join_inventory_rows; exact Hj|]. split; [reflexivity | auto].
    + split; [apply join_inventory_rows; exact Hj|]. split; [reflexivity | discriminate].
  - unfold get_inventory. rewrite filter_map_flag. reflexivity.
Qed.

Lemma join_inventory_all db :
  NoDup (map Product.id (products db)) ->
  incl (map Inventory.product_id (inventory db)) (map Product.id (products db)) ->
  map fst (join_inventory_products db) = inventory db.
Proof.
  intros Hnd Hfk. unfold join_inventory_products.
  induction (inventory db) as [|i l IH]; simpl; [reflexivity|].
  rewrite map_app, IH by (intros x Hx; apply Hfk; simpl; auto).
  rewrite filter_unique_id by exact Hnd.
  assert (Hin : In (Inventory.product_id i) (map Product.id (products db))).
  { apply Hfk. simpl. auto. }
  apply (find_by_key Product.id) in Hin.
  destruct (find _ (products db)); [reflexivity | congruence].
Qed.

(** X15.  Over a store that satisfies its constraints the join of
    [get_inventory] loses and repeats nothing: the full listing is the
    Inventory table, and the low-stock listing its low-stock rows. *)
Theorem get_inventory_lists_every_row (db : DB) :
  store_ok db ->
  map fst (get_inventory false db) = inventory db
  /\ map fst (get_inventory true db) = filter is_low_stock (inventory db).
Proof.
  intros Hok. unfold get_inventory.
  rewrite (join_inventory_all db (pk_products _ Hok) (fk_inventory_product _ Hok)).
  rewrite !map_map. cbn [fst]. rewrite !map_id. auto.
Qed.

(** X15 on the example store. *)
Lemma get_inventory_lists_every_row_witness :
  store_ok example_db
  /\ map fst (get_inventory false example_db) = [Inventory.mk 1 1 5 10]
  /\ map fst (get_inventory true example_db) = [Inventory.mk 1 1 5 10].
Proof.
  split; [exact store_ok_example|].
  destruct (get_inventory_lists_every_row example_db store_ok_example) as [H1 H2].
  split; [rewrite H1 | rewrite H2]; reflexivity.
Defined.

(** X16.  The buckets of a revenue analysis come back in ascending order
    of [start_date]: each bucket starts no later than every bucket after
    it. *)
Theorem revenue_buckets_ascending (period : PeriodType)
    (start_date end_date : option datetime) (category_id : option Z)
    (platform : option string) (utcnow : datetime) (db : DB) :
  match get_revenue_analysis period start_date end_date category_id platform
                             utcnow db with
  | Ok res => StronglySorted starts_before res
  | Raise _ => True
  end.
Proof.
  unfold get_revenue_analysis.
  destruct (match start_date with Some s => Ok s | None => _ end) as [sd|e];
    cbn [bind]; [|exact I].
  destruct (group_sales period _ []) as [g|e]; cbn [bind]; [|exact I].
  destruct (mapM (to_response period) g) as [res|e]; cbn [bind]; [|exact I].
  apply Sorted_StronglySorted.
  - intros a b c. unfold starts_before. apply datetime_leb_trans.
  - apply (sorted_Sorted _ by_start_date). intros x y. unfold by_start_date.
    apply datetime_leb_total.
Qed.

Lemma filter_none {A} (f : A -> bool) l : (forall x, f x = false) -> filter f l = [].
Proof. intros H. induction l as [|x l IH]; simpl; [reflexivity|]. rewrite H. exact IH. Qed.

(** X17.  A date range whose end is before its start selects no sale: the
    revenue analysis answers the empty list, for every granularity, monthly
    included. *)
Theorem revenue_of_inverted_range_is_empty (period : PeriodType)
    (start_date end_date : datetime) (category_id : option Z)
    (platform : option string) (utcnow : datetime) (db : DB) :
  datetime_ltb end_date start_date = true ->
  get_revenue_analysis period (Some start_date) (Some end_date) category_id platform
                       utcnow db = Ok [].
Proof.
  intros Hlt. unfold get_revenue_analysis. cbn [bind].
  rewrite revenue_query_filter.
  rewrite filter_none; [reflexivity|].
  intros r. unfold pair_matches.
  destruct (datetime_leb start_date (Sale.sale_date (fst r))) eqn:E1; [|reflexivity].
  destruct (datetime_leb (Sale.sale_date (fst r)) end_date) eqn:E2; [|reflexivity].
  pose proof (datetime_leb_trans _ _ _ E1 E2) as Ht.
  rewrite (datetime_ltb_not_leb _ _ Hlt) in Ht. discriminate.
Qed.

(** X17 on January taken backwards, monthly. *)
Lemma revenue_of_inverted_range_is_empty_witness :
  datetime_ltb january_start january_end = true
  /\ get_revenue_analysis monthly (Some january_end) (Some january_start) None None
                          some_utcnow january_db = Ok [].
Proof.
  assert (H : datetime_ltb january_start january_end = true) by reflexivity.
  split; [exact H|].
  exact (revenue_of_inverted_range_is_empty monthly january_end january_start None None
           some_utcnow january_db H).
Defined.

(** The buckets of an aggregation that is not monthly: the grouped dict, with
    its invariant, and a response for every entry. *)
Lemma revenue_buckets period start_date end_date category_id platform utcnow db :
  period <> monthly ->
  store_wf db ->
  (forall s, In s (sales_matching start_date end_date category_id platform db) ->
     datetime_valid (Sale.sale_date s)
     /\ year (dt_date (Sale.sale_date s)) < MAXYEAR) ->
  exists g res0,
    grouped_inv period (sales_matching start_date end_date category_id platform db) g
    /\ Forall2 (fun x y => to_response period x = Ok y) g res0
    /\ get_revenue_analysis period (Some start_date) (Some end_date)
                            category_id platform utcnow db
       = Ok (sorted by_start_date res0).
Proof.
  intros Hp [Hnd Hfk] Hv.
  unfold get_revenue_analysis. cbn [bind].
  rewrite revenue_query_matching by assumption.
  set (matching := sales_matching start_date end_date category_id platform db) in *.
  destruct (group_sales_total period matching []) as [g Hg].
  { intros s Hs. destruct (Hv s Hs) as [Hd _].
    destruct (bucket_key_valid period _ Hd) as [k [Hk _]]. eauto. }
  pose proof (group_sales_inv period matching [] [] g (grouped_inv_nil period) Hg)
    as Hinv. simpl in Hinv.
  destruct (mapM_total (to_response period) g) as [res0 Hres0].
  { intros [k d] Hin. destruct Hinv as (_ & Hent & _).
    destruct (Hent _ _ Hin) as [_ [s [Hs Hk]]].
    destruct (Hv s Hs) as [Hd Hy].
    destruct (period_end_total period _ k Hp Hd Hy Hk) as [pe Hpe].
    apply (to_response_total _ _ _ _ Hpe). }
  exists g, res0. rewrite Hg. cbn [bind]. rewrite Hres0. cbn [bind].
  split; [exact Hinv|]. split; [apply mapM_Forall2; exact Hres0 | reflexivity].
Qed.

Lemma to_response_average period k d r :
  to_response period (k, d) = Ok r ->
  RevenueAnalysis.average_order_value r
  = if grouped.sales_count d >? 0
    then float_div_int (grouped.total_revenue d) (grouped.sales_count d)
    else 0%float.
Proof.
  unfold to_response. destruct (period_end period k); simpl; [|discriminate].
  intros H. injection H as <-. reflexivity.
Qed.

(** X18.  For daily, weekly and annual granularity (hypotheses of C1): the
    answer is empty exactly when no sale matches; each bucket holds at least
    one matching sale and its [average_order_value] is its [total_revenue]
    divided by the number of its matching sales. *)
Theorem average_order_value_of_bucket (period : PeriodType)
    (start_date end_date : datetime) (category_id : option Z)
    (platform : option string) (utcnow : datetime) (db : DB) :
  period <> monthly ->
  store_wf db ->
  (forall s, In s (sales_matching start_date end_date category_id platform db) ->
     datetime_valid (Sale.sale_date s)
     /\ year (dt_date (Sale.sale_date s)) < MAXYEAR) ->
  let matching := sales_matching start_date end_date category_id platform db in
  exists res,
    get_revenue_analysis period (Some start_date) (Some end_date)
                         category_id platform utcnow db = Ok res
    /\ (res = [] <-> matching = [])
    /\ Forall (fun b =>
         exists key,
           RevenueAnalysis.start_date b = combine_min key
           /\ let n := List.length (filter (in_bucket period key) matching) in
              (0 < n)%nat
              /\ RevenueAnalysis.average_order_value b
                 = float_div_int (RevenueAnalysis.total_revenue b) (Z.of_nat n)) res.
Proof.
  intros Hp Hwf Hv matching.
  destruct (revenue_buckets period start_date end_date category_id platform utcnow db
              Hp Hwf Hv) as (g & res0 & Hinv & Hres0 & Hget).
  fold matching in Hinv. destruct Hinv as (_ & Hent & Hcov & _).
  pose proof (sorted_perm by_start_date res0) as Hperm.
  exists (sorted by_start_date res0). split; [exact Hget|]. split.
  - split.
    + intros He. rewrite He in Hperm. apply Permutation_nil in Hperm. subst res0.
      inversion Hres0; subst.
      destruct matching as [|s l]; [reflexivity|].
      destruct (Hcov s (or_introl eq_refl)) as [k [_ []]].
    + intros He. rewrite He in Hent.
      destruct g as [|[k d] g].
      * inversion Hres0; subst. reflexivity.
      * destruct (Hent k d (or_introl eq_refl)) as [_ [s [[] _]]].
  - apply Forall_forall. intros b Hb. apply (Permutation_in _ Hperm) in Hb.
    destruct (Forall2_In_r _ _ _ _ Hres0 Hb) as [[k d] [Hin Hr]].
    destruct (to_response_fields _ _ _ _ Hr) as (Hsd & Htr & _).
    destruct (Hent _ _ Hin) as [Hd [s [Hs Hk]]].
    exists k. split; [exact Hsd|]. cbv zeta.
    assert (Hpos : (0 < List.length (filter (in_bucket period k) matching))%nat).
    { assert (Hf : In s (filter (in_bucket period k) matching)).
      { apply filter_In. split; [exact Hs|]. unfold in_bucket. rewrite Hk.
        apply date_eqb_refl. }
      destruct (filter (in_bucket period k) matching); [destruct Hf | simpl; lia]. }
    split; [exact Hpos|].
    rewrite (to_response_average _ _ _ _ Hr), Htr, Hd. cbn [grouped.sales_count summary
      grouped.total_revenue].
    replace (Z.of_nat (List.length (filter (in_bucket period k) matching)) >? 0)
      with true by (symmetry; apply Z.gtb_lt; lia).
    reflexivity.
Qed.

(** X19.  For daily and weekly granularity (hypotheses of C1): a daily
    bucket ends at 23:59:59 of its day; a weekly bucket starts on a Monday and
    ends at 23:59:59 six days later, a Sunday. *)
Theorem daily_and_weekly_bucket_ends (period : PeriodType)
    (start_date end_date : datetime) (category_id : option Z)
    (platform : option string) (utcnow : datetime) (db : DB) :
  period = daily \/ period = weekly ->
  store_wf db ->
  (forall s, In s (sales_matching start_date end_date category_id platform db) ->
     datetime_valid (Sale.sale_date s)
     /\ year (dt_date (Sale.sale_date s)) < MAXYEAR) ->
  exists res,
    get_revenue_analysis period (Some start_date) (Some end_date)
                         category_id platform utcnow db = Ok res
    /\ Forall (fun b =>
         exists key,
           date_valid key
           /\ RevenueAnalysis.start_date b = combine_min key
           /\ match period with
              | weekly =>
                  weekday key = 0
                  /\ RevenueAnalysis.end_date b
                     = mkdatetime (fromordinal (toordinal key + 6)) 23 59 59 0
                  /\ weekday (fromordinal (toordinal key + 6)) = 6
              | _ => RevenueAnalysis.end_date b = mkdatetime key 23 59 59 0
              end) res.
Proof.
  intros Hper Hwf Hv.
  assert (Hp : period <> monthly) by (destruct Hper; subst; discriminate).
  destruct (revenue_buckets period start_date end_date category_id platform utcnow db
              Hp Hwf Hv) as (g & res0 & Hinv & Hres0 & Hget).
  destruct Hinv as (_ & Hent & _).
  exists (sorted by_start_date res0). split; [exact Hget|].
  apply Forall_forall. intros b Hb.
  apply (Permutation_in _ (sorted_perm by_start_date res0)) in Hb.
  destruct (Forall2_In_r _ _ _ _ Hres0 Hb) as [[k d] [Hin Hr]].
  destruct (to_response_fields _ _ _ _ Hr) as (Hsd & _ & _ & pe & Hpe & Hed).
  destruct (Hent _ _ Hin) as [_ [s [Hs Hk]]].
  destruct (Hv s Hs) as [Hd Hy].
  destruct (bucket_key_valid period _ Hd) as [k' (Hk' & Hkv & Hle)].
  assert (k' = k) by congruence. subst k'.
  pose proof (toordinal_before_last_year _ (proj1 Hd) Hy) as Hb'.
  pose proof (toordinal_range k Hkv) as Hr'.
  exists k. split; [exact Hkv|]. split; [exact Hsd|].
  destruct Hper; subst period.
  - rewrite period_end_daily in Hpe by (auto; unfold MAXORDINAL in *; lia).
    injection Hpe as <-. exact Hed.
  - rewrite period_end_weekly in Hpe by (auto; unfold MAXORDINAL in *; lia).
    injection Hpe as <-.
    destruct (bucket_key_weekly _ Hd) as [k' (Hk'' & _ & Hw & _)].
    assert (k' = k) by congruence. subst k'.
    split; [exact Hw|]. split; [exact Hed|].
    unfold weekday in *. rewrite toordinal_fromordinal by lia.
    Z.div_mod_to_equations. lia.
Qed.

Lemma january_sales_valid :
  forall s, In s (sales_matching january_start january_end None None january_db) ->
    datetime_valid (Sale.sale_date s)
    /\ year (dt_date (Sale.sale_date s)) < MAXYEAR.
Proof.
  intros s Hs. vm_compute in Hs.
  repeat (destruct Hs as [<- | Hs]; [vm_compute; repeat split; reflexivity|]).
  destruct Hs.
Qed.

(** X19 on the January store: one week, Monday 1st to Sunday 7th. *)
Lemma daily_and_weekly_bucket_ends_witness :
  (weekly = daily \/ weekly = weekly) /\ store_wf january_db
  /\ exists res,
       get_revenue_analysis weekly (Some january_start) (Some january_end) None None
                            some_utcnow january_db = Ok res
       /\ Forall (fun b =>
            RevenueAnalysis.start_date b = combine_min (mkdate 2024 1 1)
            /\ RevenueAnalysis.end_date b = mkdatetime (mkdate 2024 1 7) 23 59 59 0) res.
Proof.
  assert (H : weekly = daily \/ weekly = weekly) by (right; reflexivity).
  split; [exact H|]. split; [exact store_wf_january|].
  destruct (daily_and_weekly_bucket_ends weekly january_start january_end None None
              some_utcnow january_db H store_wf_january january_sales_valid)
    as (res & Hres & _).
  exists res. split; [exact Hres|].
  vm_compute in Hres. injection Hres as <-. repeat constructor.
Defined.

(** X18 on the January store, daily. *)
Lemma average_order_value_of_bucket_witness :
  (daily <> monthly /\ store_wf january_db)
  /\ exists res,
       get_revenue_analysis daily (Some january_start) (Some january_end) None None
                            some_utcnow january_db = Ok res
       /\ map RevenueAnalysis.average_order_value res = [0.1%float; 0.75%float].
Proof.
  assert (H : daily <> monthly) by discriminate.
  split; [exact (conj H store_wf_january)|].
  destruct (average_order_value_of_bucket daily january_start january_end None None
              some_utcnow january_db H store_wf_january january_sales_valid)
    as (res & Hres & _).
  exists res. split; [exact Hres|].
  vm_compute in Hres. injection Hres as <-. reflexivity.
Defined.

(** *** The default window *)

Lemma datetime_sub_days dt n :
  datetime_valid dt -> 0 <= n ->
  datetime_sub dt (new_timedelta n 0 0)
  = if 0 <? toordinal (dt_date dt) - n
    then Ok (mkdatetime (fromordinal (toordinal (dt_date dt) - n))
                        (hour dt) (minute dt) (second dt) (microsecond dt))
    else Raise OverflowError.
Proof.
  intros [Hd Ht] Hn. pose proof (toordinal_range _ Hd) as Hr.
  unfold check_time_fields in Ht. rewrite !andb_true_iff, !Z.leb_le in Ht.
  destruct Ht as [[[[[[[Hh0 Hh1] Hm0] Hm1] Hs0] Hs1] Hu0] Hu1].
  unfold datetime_sub, timedelta_neg. rewrite new_timedelta_days.
  cbn [days seconds microseconds]. change (- 0) with 0. rewrite new_timedelta_days.
  unfold datetime_add, timedelta_add.
  rewrite (new_timedelta_normal (toordinal (dt_date dt))) by lia.
  cbn [days seconds microseconds]. rewrite !Z.add_0_r.
  rewrite new_timedelta_normal by lia. cbn [days seconds microseconds].
  replace (toordinal (dt_date dt) + - n) with (toordinal (dt_date dt) - n) by lia.
  replace (toordinal (dt_date dt) - n <=? MAXORDINAL) with true
    by (symmetry; apply Z.leb_le; lia).
  rewrite andb_true_r.
  destruct (0 <? toordinal (dt_date dt) - n); [|reflexivity].
  f_equal. f_equal.
  - Z.div_mod_to_equations. lia.
  - Z.div_mod_to_equations. lia.
  - Z.div_mod_to_equations. lia.
Qed.


